(** * Simple E-commerce Cart System: catalog, cart and checkout

  A shallow embedding of the core classes of
  [Simple E-commerce Cart System.py]: [Product], the discount strategies,
  [CartItem], [ShoppingCart] and [ProductPrototype].

  Conventions of the embedding.
  - Python [int] values (quantities, stock counts) are [Z].
  - Prices, percentages and totals are exact rationals [Q]; an [int] price
    is embedded exactly, and the rounding of Python's binary floating
    point is not part of the model.  Totals are compared with [==].
  - A [str] is a [string]; the catalog dictionary is a [gmap string _].
  - An attribute that may hold [None] is an [option]; code that can raise
    returns a [result].
  - The [logger] is modelled for [display_cart] and [checkout], whose
    callers learn the outcome of a checkout from the log only (the method
    returns [None] on every path). *)

From Stdlib Require Import ZArith QArith Lia Lqa.
From stdpp Require Import base option list gmap strings fin_maps.

(** ** Exceptions *)

Inductive exception : Type :=
| AttributeError   (* attribute access on [None] *)
| KeyError (key : string).

Inductive result (A : Type) : Type :=
| Return (a : A)
| Raise (e : exception).
Arguments Return {A} a.
Arguments Raise {A} e.

(** ** [class Product] *)

Module Product.
Record t : Type := mk {
  name : string;
  price : Q;
  available : bool;
  count : Z;
  discount : Q
}.

(** [product.count = c] *)
Definition set_count (c : Z) (p : t) : t :=
  mk (name p) (price p) (available p) c (discount p).

(** [product.available = a] *)
Definition set_available (a : bool) (p : t) : t :=
  mk (name p) (price p) a (count p) (discount p).

(** [product.discount = d] *)
Definition set_discount (d : Q) (p : t) : t :=
  mk (name p) (price p) (available p) (count p) d.

(** [product.price = x] *)
Definition set_price (x : Q) (p : t) : t :=
  mk (name p) x (available p) (count p) (discount p).
End Product.

(** The default of the [count] parameter of [Product.__init__]. *)
Definition default_count : Z := 10.

(** ** Discount strategies

  One constructor per class; [apply_discount] dispatches on it.  The two
  subclasses call [super().apply_discount], which is the identity. *)

Inductive DiscountStrategy : Type :=
| BaseDiscountStrategy
| PercentageOffDiscountStrategy (percentage : Q)
| BuyOneGetOneFreeDiscountStrategy.

Definition apply_discount (s : DiscountStrategy) (price : Q) : Q :=
match s with
| BaseDiscountStrategy => price
| PercentageOffDiscountStrategy percentage =>
    (price * (1 - percentage / 100))%Q
| BuyOneGetOneFreeDiscountStrategy => (price * (1 # 2))%Q
end.

(** ** [class CartItem]

  [discount_strategy] is whatever reference the caller passed; the
  customer menu passes [None] for a product whose discount is 0. *)

Module CartItem.
Record t : Type := mk {
  name : string;
  price : Q;
  quantity : Z;
  discount_strategy : option DiscountStrategy
}.

(** [item.quantity = q] *)
Definition set_quantity (q : Z) (i : t) : t :=
  mk (name i) (price i) q (discount_strategy i).

(** [self.discount_strategy.apply_discount(self.price) * self.quantity] *)
Definition calculate_total (i : t) : result Q :=
  match discount_strategy i with
  | Some s => Return (apply_discount s (price i) * inject_Z (quantity i))%Q
  | None => Raise AttributeError
  end.
End CartItem.

(** [add_item] reads [product.name] and [product.price] of whatever object it
  is given: a [Product], or the [CartItem] that [clone] returned. *)

Class NamedPriced (A : Type) : Type := {
name_of : A -> string;
price_of : A -> Q
}.

#[export] Instance Product_NamedPriced : NamedPriced Product.t :=
{| name_of := Product.name; price_of := Product.price |}.

#[export] Instance CartItem_NamedPriced : NamedPriced CartItem.t :=
{| name_of := CartItem.name; price_of := CartItem.price |}.

(** ** The logger *)

Inductive level : Type := INFO | WARNING | ERROR.

Inductive message : Type :=
| CartItemsMsg (cart_info : list (Z * string))
| TotalBillMsg (total_bill : Q)
| CheckedOutMsg (quantity : Z) (product_name : string)
                (count : Z) (available : bool)
| NotEnoughStockMsg (product_name : string)
| PurchaseSuccessfulMsg
| CheckoutErrorMsg (e : exception).

Definition log_record : Type := level * message.

(** ** [class ShoppingCart]

  [cart_items] is a Python list of [CartItem] objects.  Every object in it
  was created by [add_item] and occurs once, so the list of their values,
  updated by position, describes it. *)

Module ShoppingCart.

Abbreviation cart := (list CartItem.t).

Definition add_item `{NamedPriced A} (cart_items : cart) (product : A)
    (quantity : Z) (discount_strategy : option DiscountStrategy) : cart :=
  cart_items ++
    [CartItem.mk (name_of product) (price_of product) quantity
                 discount_strategy].

(** The [for] loop returns at the first item whose name matches. *)
Fixpoint update_quantity (cart_items : cart) (product_name : string)
    (new_quantity : Z) : cart :=
  match cart_items with
  | [] => []
  | item :: rest =>
      if String.eqb (CartItem.name item) product_name
      then CartItem.set_quantity new_quantity item :: rest
      else item :: update_quantity rest product_name new_quantity
  end.

(** The loop of the [else] branch of [remove_item].  The list iterator
    keeps an index [i] into the list it walks; the body may shorten that
    same list.  [self.cart_items.remove(item)] removes the first element
    equal to [item]; [CartItem] has no [__eq__], so that is the object at
    index [i] itself.  Each turn uses one unit of [fuel]. *)
Fixpoint remove_loop (fuel : nat) (product_name : string)
    (remove_quantity : Z) (i : nat) (cart_items : cart) : cart :=
  match fuel with
  | O => cart_items
  | S fuel' =>
      match cart_items !! i with
      | None => cart_items
      | Some item =>
          if String.eqb (CartItem.name item) product_name then
            let q := (CartItem.quantity item - remove_quantity)%Z in
            if (q <=? 0)%Z
            then remove_loop fuel' product_name remove_quantity (S i)
                   (delete i cart_items)
            else remove_loop fuel' product_name remove_quantity (S i)
                   (<[i := CartItem.set_quantity q item]> cart_items)
          else remove_loop fuel' product_name remove_quantity (S i)
                 cart_items
      end
  end.

(** [remove_quantity = None] rebuilds the list by comprehension. *)
Definition remove_item (cart_items : cart) (product_name : string)
    (remove_quantity : option Z) : cart :=
  match remove_quantity with
  | None =>
      List.filter
        (fun item => negb (String.eqb (CartItem.name item) product_name))
        cart_items
  | Some r => remove_loop (length cart_items) product_name r 0 cart_items
  end.

(** [sum(...)] adds the line totals to 0 from left to right, and stops at
    the first one that raises. *)
Fixpoint sum_from (acc : Q) (cart_items : cart) : result Q :=
  match cart_items with
  | [] => Return acc
  | item :: rest =>
      match CartItem.calculate_total item with
      | Return x => sum_from (acc + x)%Q rest
      | Raise e => Raise e
      end
  end.

Definition calculate_total_bill (cart_items : cart) : result Q :=
  sum_from 0%Q cart_items.

(** [display_cart] logs the item list, then the bill; computing the bill
    may raise after the first record has been written. *)
Definition display_cart (cart_items : cart) : list log_record * result unit :=
  let cart_info :=
    map (fun item => (CartItem.quantity item, CartItem.name item))
        cart_items in
  match calculate_total_bill cart_items with
  | Return total => ([(INFO, CartItemsMsg cart_info);
                      (INFO, TotalBillMsg total)], Return tt)
  | Raise e => ([(INFO, CartItemsMsg cart_info)], Raise e)
  end.

(** One turn of the loop of [checkout]. *)
Inductive item_outcome : Type :=
  | Deducted (products' : gmap string Product.t) (r : log_record)
  | Skipped
  | Insufficient (r : log_record).

Definition checkout_item (item : CartItem.t)
    (products : gmap string Product.t) : item_outcome :=
  let product_name := CartItem.name item in
  let quantity := CartItem.quantity item in
  match products !! product_name with
  | Some product =>
      if (quantity <=? Product.count product)%Z then
        let product1 :=
          Product.set_count (Product.count product - quantity)%Z product in
        let product2 :=
          if (Product.count product1 =? 0)%Z
          then Product.set_available false product1
          else product1 in
        Deducted (<[product_name := product2]> products)
          (INFO, CheckedOutMsg quantity product_name
                   (Product.count product2) (Product.available product2))
      else Insufficient (WARNING, NotEnoughStockMsg product_name)
  | None => Skipped
  end.

(** The [for] loop of [checkout] and the record written after it. *)
Fixpoint checkout_loop (cart_items : cart)
    (products : gmap string Product.t)
    : gmap string Product.t * list log_record :=
  match cart_items with
  | [] => (products, [(INFO, PurchaseSuccessfulMsg)])
  | item :: rest =>
      match checkout_item item products with
      | Deducted products' r =>
          let '(products'', log) := checkout_loop rest products' in
          (products'', r :: log)
      | Skipped => checkout_loop rest products
      | Insufficient r => (products, [r])
      end
  end.

(** [checkout]: the [try] block shows the cart, then runs the loop; the
    handler logs whatever was raised. *)
Definition checkout (cart_items : cart) (products : gmap string Product.t)
    : gmap string Product.t * list log_record :=
  match display_cart cart_items with
  | (log0, Return _) =>
      let '(products', log) := checkout_loop cart_items products in
      (products', log0 ++ log)
  | (log0, Raise e) => (products, log0 ++ [(ERROR, CheckoutErrorMsg e)])
  end.

End ShoppingCart.

(** ** [class ProductPrototype] *)

Module ProductPrototype.

(** [product_class(name, price, available, discount=discount)] leaves
    [count] at its default. *)
Definition register_product (products : gmap string Product.t)
    (name : string) (price : Q) (available : bool) (discount : Q)
    : gmap string Product.t :=
  <[name := Product.mk name price available default_count discount]>
    products.

(** [self.products[name]] raises [KeyError] for an unknown name. *)
Definition clone (products : gmap string Product.t) (name : string)
    (quantity : Z) (discount_strategy : option DiscountStrategy)
    : result CartItem.t :=
  match products !! name with
  | Some product =>
      Return (CartItem.mk (Product.name product) (Product.price product)
                          quantity discount_strategy)
  | None => Raise (KeyError name)
  end.

End ProductPrototype.

(** ** Sample data: [product_data] and [load_products] *)

Definition product_data : list (string * (Q * bool * Z * Q)) :=
[ ("Laptop1"%string, (800%Q, true, 20%Z, 5%Q));
  ("Headphones1"%string, (50%Q, false, 10%Z, 0%Q)) ].

Definition load_products (products : gmap string Product.t)
  : gmap string Product.t :=
foldl
  (fun products '(name, (price, available, count, discount)) =>
     let products' :=
       ProductPrototype.register_product products name price available
                                         discount in
     alter (Product.set_count count) name products')
  products product_data.

(** ** The same classes as objects in a store

    [Product] and [CartItem] instances are mutable objects and the catalog
    dictionary holds references to them.  This module keeps the references:
    a heap of objects and a dictionary from names to addresses.  It is used
    to show that a line item shares nothing with the catalog entry it was
    cloned from; the value-level catalog above is its erasure. *)

Module Objects.

Inductive object : Type :=
| ProductObj (p : Product.t)
| CartItemObj (c : CartItem.t).

Record state : Type := mkState {
  heap : gmap positive object;
  products : gmap string positive
}.

(** A constructor call puts the new object at an unused address. *)
Definition alloc (o : object) (h : gmap positive object)
    : positive * gmap positive object :=
  let l := fresh (dom h) in (l, <[l := o]> h).

Definition register_product (st : state) (name : string) (price : Q)
    (available : bool) (discount : Q) : state :=
  let '(l, h) :=
    alloc (ProductObj (Product.mk name price available default_count discount))
          (heap st) in
  mkState h (<[name := l]> (products st)).

(** [copy.deepcopy] of a [Product], whose attributes are a string, numbers
    and a boolean, makes one new object with the same attribute values. *)
Definition deepcopy (l : positive) (h : gmap positive object)
    : option (positive * Product.t * gmap positive object) :=
  match h !! l with
  | Some (ProductObj p) =>
      let '(l', h') := alloc (ProductObj p) h in Some (l', p, h')
  | _ => None
  end.

(** [clone] returns the address of the new [CartItem].  The dictionary holds
    addresses of [Product] objects only, so the copy is always made. *)
Definition clone (st : state) (name : string) (quantity : Z)
    (discount_strategy : option DiscountStrategy)
    : result (positive * state) :=
  match products st !! name with
  | None => Raise (KeyError name)
  | Some l =>
      match deepcopy l (heap st) with
      | Some (_, product, h1) =>
          let '(li, h2) :=
            alloc (CartItemObj
                     (CartItem.mk (Product.name product)
                                  (Product.price product)
                                  quantity discount_strategy)) h1 in
          Return (li, mkState h2 (products st))
      | None => Raise AttributeError
      end
  end.

(** An attribute assignment through the dictionary,
    [products[name].attr = v], as the admin menu and [checkout] do for
    names that are registered; [f] is the change of the attribute. *)
Definition write_product (st : state) (name : string)
    (f : Product.t -> Product.t) : state :=
  match products st !! name with
  | Some l =>
      match heap st !! l with
      | Some (ProductObj p) =>
          mkState (<[l := ProductObj (f p)]> (heap st)) (products st)
      | _ => st
      end
  | None => st
  end.

(** What the catalog can undergo after a clone: attribute assignments and
    registrations. *)
Inductive catalog_edit : Type :=
| Assign (name : string) (f : Product.t -> Product.t)
| Register (name : string) (price : Q) (available : bool) (discount : Q).

Definition apply_edit (st : state) (e : catalog_edit) : state :=
  match e with
  | Assign name f => write_product st name f
  | Register name price available discount =>
      register_product st name price available discount
  end.

Definition read_product (st : state) (name : string) : option Product.t :=
  match products st !! name with
  | Some l =>
      match heap st !! l with
      | Some (ProductObj p) => Some p
      | _ => None
      end
  | None => None
  end.

Definition read_item (st : state) (li : positive) : option CartItem.t :=
  match heap st !! li with
  | Some (CartItemObj c) => Some c
  | _ => None
  end.

(** Every dictionary value is the address of a [Product] object, and no
    two names share an object. *)
Definition well_formed (st : state) : Prop :=
  (forall name l, products st !! name = Some l ->
     exists p, heap st !! l = Some (ProductObj p))
  /\ (forall name1 name2 l,
        products st !! name1 = Some l -> products st !! name2 = Some l ->
        name1 = name2).

(** The value-level catalog: each name with the current attribute values of
    the object it refers to. *)
Definition erase (st : state) : gmap string Product.t :=
  omap (fun l => match heap st !! l with
                 | Some (ProductObj p) => Some p
                 | _ => None
                 end) (products st).

End Objects.

(** ** Vocabulary of the statements *)

Import ShoppingCart.

(** Every line item holds a discount strategy object, not [None]. *)
Definition priced (cart_items : cart) : Prop :=
  Forall (fun item => is_Some (CartItem.discount_strategy item)) cart_items.

(** The bill of the cart can be computed: [calculate_total_bill] returns.
    [checkout] reaches its loop exactly then. *)
Definition billable (cart_items : cart) : Prop :=
  exists total, calculate_total_bill cart_items = Return total.

(** Every line item has a quantity above 0. *)
Definition positive_quantities (cart_items : cart) : Prop :=
  Forall (fun item => (0 < CartItem.quantity item)%Z) cart_items.

(** The calls that change a cart, and what a sequence of them reaches. *)
Inductive cart_op : Type :=
| AddItem (product : Product.t) (quantity : Z)
          (discount_strategy : option DiscountStrategy)
| UpdateQuantity (product_name : string) (new_quantity : Z)
| RemoveItem (product_name : string) (remove_quantity : option Z).

Definition apply_op (cart_items : cart) (op : cart_op) : cart :=
  match op with
  | AddItem product quantity discount_strategy =>
      add_item cart_items product quantity discount_strategy
  | UpdateQuantity product_name new_quantity =>
      update_quantity cart_items product_name new_quantity
  | RemoveItem product_name remove_quantity =>
      remove_item cart_items product_name remove_quantity
  end.

(** The caller gives [add_item] and [update_quantity] a quantity above 0;
    the methods themselves do not check. *)
Definition positive_argument (op : cart_op) : Prop :=
  match op with
  | AddItem _ quantity _ => (0 < quantity)%Z
  | UpdateQuantity _ new_quantity => (0 < new_quantity)%Z
  | RemoveItem _ _ => True
  end.

(** The names of the line items, in cart order. *)
Definition names (cart_items : cart) : list string :=
  map CartItem.name cart_items.

(** The units of [product_name] that the line items ask for, all line items
    of that name together. *)
Fixpoint ordered (product_name : string) (cart_items : cart) : Z :=
  match cart_items with
  | [] => 0
  | item :: rest =>
      ((if String.eqb (CartItem.name item) product_name
        then CartItem.quantity item else 0)
       + ordered product_name rest)%Z
  end.

(** The two records [checkout] can end its log with when nothing raises. *)
Definition purchase_successful : log_record := (INFO, PurchaseSuccessfulMsg).

Definition not_enough_stock (product_name : string) : log_record :=
  (WARNING, NotEnoughStockMsg product_name).

(** The line items before a given one are processed without a shortage:
    the loop, run on them alone, ends with the success record. *)
Definition passes (cart_items : cart) (products products' : gmap string Product.t)
    : Prop :=
  exists log, checkout_loop cart_items products = (products', log)
              /\ last log = Some purchase_successful.

(** The same, as the derivation the loop follows: one rule per turn that
    does not return. *)
Inductive pass : cart -> gmap string Product.t -> gmap string Product.t
                 -> list log_record -> Prop :=
| pass_nil products : pass [] products products []
| pass_deducted item rest products products' r products'' log :
    checkout_item item products = Deducted products' r ->
    pass rest products' products'' log ->
    pass (item :: rest) products products'' (r :: log)
| pass_skipped item rest products products'' log :
    checkout_item item products = Skipped ->
    pass rest products products'' log ->
    pass (item :: rest) products products'' log.

(** Two results agree: both raise the same exception, or both return and
    the numbers are equal. *)
Definition result_eq (r1 r2 : result Q) : Prop :=
  match r1, r2 with
  | Return x, Return y => (x == y)%Q
  | Raise e1, Raise e2 => e1 = e2
  | _, _ => False
  end.

(** The total as the specification words it: the sum, over all line items,
    of the discounted unit price times the quantity. *)
Definition line_total (item : CartItem.t) : result Q :=
  match CartItem.discount_strategy item with
  | Some policy =>
      Return (apply_discount policy (CartItem.price item)
              * inject_Z (CartItem.quantity item))%Q
  | None => Raise AttributeError
  end.

Fixpoint sum_of_line_totals (cart_items : cart) : result Q :=
  match cart_items with
  | [] => Return 0%Q
  | item :: rest =>
      match line_total item, sum_of_line_totals rest with
      | Return x, Return s => Return (x + s)%Q
      | Raise e, _ => Raise e
      | _, Raise e => Raise e
      end
  end.

(** The structural reading of the removal loop: what it does to the part of
    the list it has not visited yet.  Deleting the item in hand moves the
    next one into its place, and the iterator steps over it. *)
Fixpoint remove_scan (product_name : string) (remove_quantity : Z)
    (cart_items : cart) : cart :=
  match cart_items with
  | [] => []
  | item :: rest =>
      if String.eqb (CartItem.name item) product_name then
        let q := (CartItem.quantity item - remove_quantity)%Z in
        if (q <=? 0)%Z then
          match rest with
          | [] => []
          | stepped_over :: rest' =>
              stepped_over :: remove_scan product_name remove_quantity rest'
          end
        else CartItem.set_quantity q item
               :: remove_scan product_name remove_quantity rest
      else item :: remove_scan product_name remove_quantity rest
  end.

(** The sample catalog and the line items the customer menu builds from
    it. *)
Definition sample_products : gmap string Product.t := load_products ∅.

(** The strategy the customer menu picks for a registered product. *)
Definition menu_strategy (products : gmap string Product.t) (name : string)
    : option DiscountStrategy :=
  match products !! name with
  | Some product =>
      if Qle_bool (Product.discount product) 0
      then None
      else Some (PercentageOffDiscountStrategy 10)
  | None => None
  end.

(** "Add to Cart" of the customer menu: for a registered name the clone is
    handed to [add_item] as its product; for any other name the menu only
    logs a warning. *)
Definition menu_add (products : gmap string Product.t) (cart_items : cart)
    (name : string) (quantity : Z) : cart :=
  let discount_strategy := menu_strategy products name in
  match ProductPrototype.clone products name quantity discount_strategy with
  | Return item => add_item cart_items item quantity discount_strategy
  | Raise _ => cart_items
  end.

(** ** [class User] and the catalog writes of the admin menu *)

(** [login] prints, asks for a user name and a password, and answers with a
    boolean; the two strings typed are its inputs here. *)
Module User.
Record t : Type := mk {
  username : string;
  password : string
}.

Definition authenticate (u : t) (input_password : string) : bool :=
  String.eqb (password u) input_password.

Inductive output : Type :=
| Printed (text : string)
| Asked (prompt : string)
| Logged (l : level) (text : string).

Definition login (u : t) (username_input password_input : string)
    : list output * bool :=
  let asked :=
    [Printed ("Login to the system - " ++ username u ++ ":");
     Asked "Username: "; Asked "Password: "] in
  if authenticate u password_input
  then (asked ++ [Printed "Login successful!";
                  Logged INFO (username u ++ " logged in.")], true)
  else (asked ++ [Printed "Login failed. Invalid credentials.";
                  Logged WARNING ("Login failed for " ++ username u ++ ".")],
        false).
End User.

(** Choice 1 of [admin_menu], once the five inputs are read: the product is
    registered and its count is then assigned.  The notification that
    follows does not write to the catalog. *)
Definition admin_add_product (products : gmap string Product.t)
    (product_name : string) (product_price : Q) (product_available : bool)
    (product_discount : Q) (product_count : Z) : gmap string Product.t :=
  alter (Product.set_count product_count) product_name
    (ProductPrototype.register_product products product_name product_price
       product_available product_discount).

(** Choice 2 of [admin_menu], once the four inputs are read: for a
    registered name the three attributes are assigned in turn; for any
    other name only a warning is logged. *)
Definition admin_update_product (products : gmap string Product.t)
    (product_name : string) (product_available : bool) (product_count : Z)
    (product_discount : Q) : gmap string Product.t :=
  match products !! product_name with
  | Some _ =>
      alter (Product.set_discount product_discount) product_name
        (alter (Product.set_count product_count) product_name
           (alter (Product.set_available product_available) product_name
              products))
  | None => products
  end.

(** ** More vocabulary *)

(** No line item asks for a negative number of units. *)
Definition nonnegative_quantities (cart_items : cart) : Prop :=
  Forall (fun item => (0 <= CartItem.quantity item)%Z) cart_items.

(** The line items find enough stock, one after the other: each one whose
    name is registered asks for no more than the count of its entry less
    what the line items before it ordered under that name.  This is the
    condition as the specification has it, stated on the catalog before the
    checkout and without reference to the loop. *)
Definition in_stock (cart_items : cart) (products : gmap string Product.t)
    : Prop :=
  forall k item p,
    cart_items !! k = Some item ->
    products !! CartItem.name item = Some p ->
    (CartItem.quantity item
     <= Product.count p - ordered (CartItem.name item) (take k cart_items))%Z.

(** Two entries, and two catalogs, that agree on everything but the
    [available] flags. *)
Definition same_stock (p1 p2 : Product.t) : Prop :=
  Product.name p1 = Product.name p2
  /\ Product.price p1 = Product.price p2
  /\ Product.count p1 = Product.count p2
  /\ Product.discount p1 = Product.discount p2.

Definition same_stocks (products1 products2 : gmap string Product.t) : Prop :=
  forall n,
    match products1 !! n, products2 !! n with
    | Some p1, Some p2 => same_stock p1 p2
    | None, None => True
    | _, _ => False
    end.

(** * Checkout *)

(** ** One turn of the loop *)

Lemma checkout_item_Deducted item products products' r :
  checkout_item item products = Deducted products' r ->
  exists product,
    products !! CartItem.name item = Some product
    /\ (CartItem.quantity item <= Product.count product)%Z
    /\ let c := (Product.count product - CartItem.quantity item)%Z in
       let product' :=
         Product.mk (Product.name product) (Product.price product)
           (if (c =? 0)%Z then false else Product.available product)
           c (Product.discount product) in
       products' = <[CartItem.name item := product']> products
       /\ r = (INFO, CheckedOutMsg (CartItem.quantity item) (CartItem.name item)
                       c (Product.available product')).
Proof.
  unfold checkout_item. intros H.
  destruct (products !! CartItem.name item) as [product|] eqn:Hl; [|discriminate].
  destruct (CartItem.quantity item <=? Product.count product)%Z eqn:Hq; [|discriminate].
  exists product. split; [done|]. split; [by apply Z.leb_le|].
  cbn zeta. inversion H; subst; clear H. cbn [Product.set_count Product.count].
  destruct (Product.count product - CartItem.quantity item =? 0)%Z; cbn; done.
Qed.

Lemma checkout_item_Skipped item products :
  checkout_item item products = Skipped <->
  products !! CartItem.name item = None.
Proof.
  unfold checkout_item.
  destruct (products !! CartItem.name item) as [product|]; [|done].
  destruct (CartItem.quantity item <=? Product.count product)%Z; split; done.
Qed.

Lemma checkout_item_Insufficient item products r :
  checkout_item item products = Insufficient r <->
  exists product,
    products !! CartItem.name item = Some product
    /\ (Product.count product < CartItem.quantity item)%Z
    /\ r = not_enough_stock (CartItem.name item).
Proof.
  unfold checkout_item, not_enough_stock.
  destruct (products !! CartItem.name item) as [product|].
  - destruct (CartItem.quantity item <=? Product.count product)%Z eqn:Hq.
    + apply Z.leb_le in Hq. split; [done|]. intros (p & [= <-] & ? & _). lia.
    + apply Z.leb_gt in Hq. split.
      * intros [= <-]. eauto.
      * intros (p & [= <-] & ? & ->). done.
  - split; [done|]. by intros (p & ? & _).
Qed.

(** ** The loop: turns that do not return, then the end or a shortage *)

Lemma pass_loop cart_items products products' log :
  pass cart_items products products' log ->
  checkout_loop cart_items products = (products', log ++ [purchase_successful]).
Proof.
  induction 1 as [|item rest products p1 r p2 log Hi _ IH|item rest products p2 log Hi _ IH]; cbn.
  - done.
  - by rewrite Hi, IH.
  - by rewrite Hi, IH.
Qed.

Lemma pass_then_shortage pre item post products products1 log1 r :
  pass pre products products1 log1 ->
  checkout_item item products1 = Insufficient r ->
  checkout_loop (pre ++ item :: post) products = (products1, log1 ++ [r]).
Proof.
  induction 1 as [|it rest products p1 r1 p2 log Hi _ IH|it rest products p2 log Hi _ IH];
    intros Hr; cbn.
  - by rewrite Hr.
  - by rewrite Hi, IH.
  - by rewrite Hi, IH.
Qed.

Lemma checkout_loop_cases cart_items products :
  (exists products' log, pass cart_items products products' log)
  \/ (exists pre item post products1 log1,
        cart_items = pre ++ item :: post
        /\ pass pre products products1 log1
        /\ checkout_item item products1
           = Insufficient (not_enough_stock (CartItem.name item))).
Proof.
  revert products. induction cart_items as [|item rest IH]; intros products.
  - left. do 2 eexists. constructor.
  - destruct (checkout_item item products) as [p1 r| |r] eqn:Hi.
    + destruct (IH p1) as [(p2 & log & Hp)|(pre & it & post & p2 & log & -> & Hp & Hf)].
      * left. do 2 eexists. eapply pass_deducted; eauto.
      * right. exists (item :: pre), it, post, p2, (r :: log).
        split; [done|]. split; [|done]. eapply pass_deducted; eauto.
    + destruct (IH products) as [(p2 & log & Hp)|(pre & it & post & p2 & log & -> & Hp & Hf)].
      * left. do 2 eexists. eapply pass_skipped; eauto.
      * right. exists (item :: pre), it, post, p2, log.
        split; [done|]. split; [|done]. eapply pass_skipped; eauto.
    + right. exists [], item, rest, products, [].
      split; [done|]. split; [constructor|].
      pose proof Hi as Hi'. apply checkout_item_Insufficient in Hi' as (p & _ & _ & ->). done.
Qed.

Lemma passes_pass cart_items products products' :
  passes cart_items products products' <->
  exists log, pass cart_items products products' log.
Proof.
  split.
  - intros (log & Hloop & Hlast).
    destruct (checkout_loop_cases cart_items products)
      as [(p2 & l & Hp)|(pre & it & post & p2 & l & -> & Hp & Hf)].
    + pose proof (pass_loop _ _ _ _ Hp) as E. rewrite E in Hloop.
      inversion Hloop; subst. eauto.
    + pose proof (pass_then_shortage _ _ post _ _ _ _ Hp Hf) as E.
      rewrite E in Hloop. inversion Hloop; subst.
      rewrite last_snoc in Hlast. discriminate.
  - intros (log & Hp). exists (log ++ [purchase_successful]).
    split; [by apply pass_loop|]. by rewrite last_snoc.
Qed.

(** What a run without shortage leaves in the catalog: each registered
    name has lost the units ordered under it, an untouched entry is the
    same object value, and an entry the cart brought to 0 is unavailable. *)
Lemma pass_lookup cart_items products products' log :
  pass cart_items products products' log ->
  forall n,
    match products !! n with
    | None => products' !! n = None
    | Some p =>
        exists p', products' !! n = Some p'
          /\ Product.count p' = (Product.count p - ordered n cart_items)%Z
          /\ (n ∉ names cart_items -> p' = p)
          /\ (n ∈ names cart_items -> Product.count p' = 0%Z ->
              Product.available p' = false)
    end.
Proof.
  induction 1 as [products|item rest products p1 r p2 log Hi _ IH
                 |item rest products p2 log Hi _ IH]; intros n.
  - destruct (products !! n) as [p|] eqn:E; [|done].
    exists p. cbn. split; [done|]. split; [lia|]. split; [done|]. by intros ?%elem_of_nil.
  - apply checkout_item_Deducted in Hi as (product & Hl & Hq & Hp1 & _).
    cbn zeta in Hp1. specialize (IH n). subst p1.
    destruct (decide (CartItem.name item = n)) as [<-|Hne].
    + rewrite lookup_insert_eq in IH. rewrite Hl.
      destruct IH as (p' & Hp' & Hc & Hout & Hin).
      exists p'. split; [done|]. cbn [ordered]. rewrite String.eqb_refl.
      simpl in Hc. split; [lia|]. split.
      * intros Hn. exfalso. apply Hn. cbn. left.
      * intros _ Hz. destruct (decide (CartItem.name item ∈ names rest)) as [Hr|Hr].
        -- by apply Hin.
        -- rewrite (Hout Hr) in Hz |- *. cbn in Hz |- *.
           apply Z.eqb_eq in Hz. by rewrite Hz.
    + rewrite lookup_insert_ne in IH by done.
      destruct (products !! n) as [p|] eqn:E; [|done].
      destruct IH as (p' & Hp' & Hc & Hout & Hin).
      exists p'. split; [done|]. cbn [ordered].
      apply String.eqb_neq in Hne. rewrite Hne. split; [lia|].
      apply String.eqb_neq in Hne. cbn. split.
      * intros Hn. apply Hout. intros ?. apply Hn. by right.
      * intros [?|?]%elem_of_cons; [congruence|]. by apply Hin.
  - apply checkout_item_Skipped in Hi. specialize (IH n).
    destruct (products !! n) as [p|] eqn:E; [|done].
    destruct IH as (p' & Hp' & Hc & Hout & Hin).
    assert (CartItem.name item ≠ n) as Hne by congruence.
    exists p'. split; [done|]. cbn [ordered].
    apply String.eqb_neq in Hne. rewrite Hne. split; [lia|].
    apply String.eqb_neq in Hne. cbn. split.
    + intros Hn. apply Hout. intros ?. apply Hn. by right.
    + intros [?|?]%elem_of_cons; [congruence|]. by apply Hin.
Qed.

Lemma pass_log cart_items products products' log :
  pass cart_items products products' log ->
  Forall (fun r => exists q n c a, r = (INFO, CheckedOutMsg q n c a)) log.
Proof.
  induction 1 as [|item rest products p1 r p2 log Hi _ IH|]; [constructor| |done].
  constructor; [|done].
  apply checkout_item_Deducted in Hi as (? & _ & _ & _ & ->). eauto.
Qed.


Lemma checkout_loop_keeps_absent cart_items products n :
  products !! n = None -> (checkout_loop cart_items products).1 !! n = None.
Proof.
  revert products. induction cart_items as [|it rest IH]; intros products Hn; cbn.
  - done.
  - destruct (checkout_item it products) as [p1 r| |r] eqn:Hi; [|by apply IH|done].
    apply checkout_item_Deducted in Hi as (p & Hl & _ & Hp1 & _).
    cbn zeta in Hp1. specialize (IH p1).
    destruct (checkout_loop rest p1) as [p2 log] eqn:E. cbn in *.
    apply IH. subst p1. rewrite lookup_insert_ne; [done|]. congruence.
Qed.

(** ** Enough stock, and the turns of the loop *)

(** The loop gets through a list of line items without a shortage exactly
    when they find enough stock in the sense of [in_stock]. *)
Lemma in_stock_cons_inv item rest products :
  in_stock (item :: rest) products ->
  match products !! CartItem.name item with
  | Some p =>
      (CartItem.quantity item <= Product.count p)%Z
      /\ forall p',
           Product.count p'
           = (Product.count p - CartItem.quantity item)%Z ->
           in_stock rest (<[CartItem.name item := p']> products)
  | None => in_stock rest products
  end.
Proof.
  intros H. destruct (products !! CartItem.name item) as [p|] eqn:Hl.
  - split.
    + specialize (H 0 item p eq_refl Hl). cbn in H. lia.
    + intros p' Hc k it q Hk Hq.
      destruct (decide (CartItem.name item = CartItem.name it)) as [E|Hne].
      * rewrite <- E, lookup_insert_eq in Hq. injection Hq as <-.
        specialize (H (S k) it p Hk). rewrite <- E in H. specialize (H Hl).
        cbn in H. rewrite E, String.eqb_refl in H. rewrite <- E in H |- *.
        lia.
      * rewrite lookup_insert_ne in Hq by done.
        specialize (H (S k) it q Hk Hq). cbn in H.
        apply String.eqb_neq in Hne. rewrite Hne in H. lia.
  - intros k it q Hk Hq.
    assert (CartItem.name item <> CartItem.name it) as Hne by congruence.
    specialize (H (S k) it q Hk Hq). cbn in H.
    apply String.eqb_neq in Hne. rewrite Hne in H. lia.
Qed.

Lemma in_stock_pass (cart_items : cart) products :
  in_stock cart_items products ->
  exists products' log, pass cart_items products products' log.
Proof.
  revert products. induction cart_items as [|item rest IH]; intros products H.
  - do 2 eexists. constructor.
  - apply in_stock_cons_inv in H.
    destruct (checkout_item item products) as [p1 r| |r] eqn:Hi.
    + pose proof Hi as Hi'.
      apply checkout_item_Deducted in Hi' as (p & Hl & Hq & Hp1 & _).
      cbn zeta in Hp1. rewrite Hl in H. destruct H as [_ H].
      destruct (IH p1) as (p2 & log & Hp).
      { subst p1. by apply H. }
      do 2 eexists. eapply pass_deducted; eauto.
    + pose proof Hi as Hi'. apply checkout_item_Skipped in Hi'.
      rewrite Hi' in H. destruct (IH _ H) as (p2 & log & Hp).
      do 2 eexists. eapply pass_skipped; eauto.
    + apply checkout_item_Insufficient in Hi as (p & Hl & Hq & _).
      rewrite Hl in H. destruct H as [H _]. lia.
Qed.

Lemma pass_in_stock (cart_items : cart) products products' log :
  pass cart_items products products' log -> in_stock cart_items products.
Proof.
  induction 1 as [products|item rest products p1 r p2 log Hi _ IH
                 |item rest products p2 log Hi _ IH].
  - intros k it q Hk. by rewrite lookup_nil in Hk.
  - apply checkout_item_Deducted in Hi as (p & Hl & Hq & Hp1 & _).
    cbn zeta in Hp1. subst p1.
    intros [|k] it q Hk Hlq; cbn in Hk.
    + injection Hk as <-. rewrite Hl in Hlq. injection Hlq as <-. cbn. lia.
    + cbn [take ordered].
      destruct (decide (CartItem.name item = CartItem.name it)) as [E|Hne].
      * pose proof (IH k it) as HI. rewrite <- E in HI, Hlq |- *.
        rewrite lookup_insert_eq in HI. specialize (HI _ Hk eq_refl).
        rewrite Hl in Hlq. injection Hlq as <-.
        rewrite String.eqb_refl. cbn in HI. lia.
      * specialize (IH k it q Hk). rewrite lookup_insert_ne in IH by done.
        specialize (IH Hlq). apply String.eqb_neq in Hne. rewrite Hne. lia.
  - apply checkout_item_Skipped in Hi.
    intros [|k] it q Hk Hlq; cbn in Hk.
    + injection Hk as <-. congruence.
    + cbn [take ordered].
      assert (CartItem.name item <> CartItem.name it) as Hne by congruence.
      apply String.eqb_neq in Hne. rewrite Hne.
      specialize (IH k it q Hk Hlq). lia.
Qed.

(** ** The bill shown before the loop *)

Lemma sum_from_priced cart_items acc :
  priced cart_items -> exists total, sum_from acc cart_items = Return total.
Proof.
  intros Hp. revert acc. induction Hp as [|item rest [s Hs] _ IH]; intros acc; cbn.
  - eauto.
  - unfold CartItem.calculate_total. rewrite Hs. apply IH.
Qed.

Lemma checkout_priced cart_items products :
  priced cart_items ->
  exists total,
    checkout cart_items products =
      ((checkout_loop cart_items products).1,
       [(INFO, CartItemsMsg
                 (map (fun item => (CartItem.quantity item, CartItem.name item))
                      cart_items));
        (INFO, TotalBillMsg total)] ++ (checkout_loop cart_items products).2).
Proof.
  intros Hp. destruct (sum_from_priced _ 0%Q Hp) as [total Ht].
  exists total. unfold checkout, display_cart, calculate_total_bill.
  rewrite Ht. by destruct (checkout_loop cart_items products).
Qed.

(** A line item without a strategy makes the bill raise, whatever else is
    in the cart; [checkout] then logs the error and leaves the catalog
    alone. *)
Lemma sum_from_not_priced cart_items acc :
  ~ priced cart_items -> sum_from acc cart_items = Raise AttributeError.
Proof.
  revert acc. induction cart_items as [|item rest IH]; intros acc Hn.
  - destruct Hn. constructor.
  - cbn. unfold CartItem.calculate_total.
    destruct (CartItem.discount_strategy item) as [s|] eqn:Hs; [|done].
    apply IH. intros Hrest. apply Hn. constructor; [|done]. by rewrite Hs.
Qed.

(** X16.  When some line item holds no strategy, [checkout] writes the
    cart-items record and the error record and leaves the catalog as it
    is, whatever the stock. *)
Lemma checkout_not_priced cart_items products :
  ~ priced cart_items ->
  checkout cart_items products
  = (products,
     [(INFO, CartItemsMsg
               (map (fun item => (CartItem.quantity item, CartItem.name item))
                    cart_items));
      (ERROR, CheckoutErrorMsg AttributeError)]).
Proof.
  intros Hn. unfold checkout, display_cart, calculate_total_bill.
  by rewrite (sum_from_not_priced _ _ Hn).
Qed.

(** In this model the bill can be computed exactly when every line item
    holds a strategy. *)
Lemma billable_priced cart_items : billable cart_items <-> priced cart_items.
Proof.
  split.
  - intros [total Ht]. unfold calculate_total_bill in Ht.
    revert Ht. generalize 0%Q.
    induction cart_items as [|item rest IH]; intros acc Ht; [constructor|].
    cbn in Ht. unfold CartItem.calculate_total in Ht.
    destruct (CartItem.discount_strategy item) as [s|] eqn:Hs; [|discriminate].
    constructor; [by rewrite Hs|]. by eapply IH.
  - intros Hp. by apply sum_from_priced.
Qed.


Lemma final_record_unique total info log fin r :
  Forall (fun r => exists q n c a, r = (INFO, CheckedOutMsg q n c a)) log ->
  (r = purchase_successful \/ exists n, r = not_enough_stock n) ->
  r ∈ [(INFO, CartItemsMsg info); (INFO, TotalBillMsg total)] ++ log ++ [fin] ->
  r = fin.
Proof.
  intros Hlog Hr Hin. rewrite Forall_forall in Hlog.
  apply elem_of_app in Hin as [Hin|Hin].
  - apply elem_of_cons in Hin as [->|Hin]; [by destruct Hr as [?|[? ?]]|].
    apply elem_of_cons in Hin as [->|Hin]; [by destruct Hr as [?|[? ?]]|].
    by apply elem_of_nil in Hin.
  - apply elem_of_app in Hin as [Hin|Hin].
    + destruct (Hlog _ Hin) as (? & ? & ? & ? & ->). by destruct Hr as [?|[? ?]].
    + by apply list_elem_of_singleton in Hin.
Qed.

Lemma checkout_pass cart_items products products' log :
  priced cart_items ->
  pass cart_items products products' log ->
  exists log',
    checkout cart_items products = (products', log')
    /\ last log' = Some purchase_successful
    /\ forall n, not_enough_stock n ∉ log'.
Proof.
  intros Hpr Hp. destruct (checkout_priced _ products Hpr) as [total E].
  rewrite (pass_loop _ _ _ _ Hp) in E. cbn [fst snd] in E.
  eexists. split; [exact E|]. split.
  - rewrite app_assoc. apply last_snoc.
  - intros n Hin. eapply final_record_unique in Hin; [discriminate| |by eauto].
    by eapply pass_log.
Qed.

Lemma checkout_pass_shortage pre item post products products1 log1 :
  priced (pre ++ item :: post) ->
  pass pre products products1 log1 ->
  checkout_item item products1
  = Insufficient (not_enough_stock (CartItem.name item)) ->
  exists log,
    checkout (pre ++ item :: post) products = (products1, log)
    /\ last log = Some (not_enough_stock (CartItem.name item))
    /\ purchase_successful ∉ log.
Proof.
  intros Hpr Hp Hi. destruct (checkout_priced _ products Hpr) as [total E].
  rewrite (pass_then_shortage _ _ post _ _ _ _ Hp Hi) in E. cbn [fst snd] in E.
  eexists. split; [exact E|]. split.
  - rewrite app_assoc. apply last_snoc.
  - intros Hin. eapply final_record_unique in Hin; [discriminate| |by eauto].
    by eapply pass_log.
Qed.

(** ** Deduction of one line item *)

(** C1, as amended.  When the loop of [checkout] reaches a line item whose
    name is registered and whose quantity is at most the entry's count, the
    count goes down by exactly that quantity and no other attribute or
    entry is touched, except that [available] becomes [false] when the new
    count is 0; when the new count is not 0 the flag keeps the value it
    had.  So a line item for exactly [count] units leaves count 0 and
    [available = false], and one for fewer units leaves the flag as it was.
    The loop then goes on with the rest of the cart. *)
Theorem checkout_item_deducts item products product :
  products !! CartItem.name item = Some product ->
  (CartItem.quantity item <= Product.count product)%Z ->
  exists product' r,
    checkout_item item products
      = Deducted (<[CartItem.name item := product']> products) r
    /\ Product.count product'
       = (Product.count product - CartItem.quantity item)%Z
    /\ (Product.count product' = 0%Z -> Product.available product' = false)
    /\ (Product.count product' <> 0%Z ->
        Product.available product' = Product.available product)
    /\ (CartItem.quantity item = Product.count product ->
        Product.count product' = 0%Z /\ Product.available product' = false)
    /\ (CartItem.quantity item < Product.count product ->
        Product.available product' = Product.available product)%Z
    /\ Product.name product' = Product.name product
    /\ Product.price product' = Product.price product
    /\ Product.discount product' = Product.discount product
    /\ forall rest,
         checkout_loop (item :: rest) products
         = let '(products'', log) :=
             checkout_loop rest (<[CartItem.name item := product']> products)
           in (products'', r :: log).
Proof.
  intros Hl Hq.
  destruct (checkout_item item products) as [p1 r| |r] eqn:Hi.
  - pose proof Hi as Hi'.
    apply checkout_item_Deducted in Hi' as (p & Hl' & _ & -> & _).
    rewrite Hl in Hl'. injection Hl' as <-.
    eexists _, r. split; [done|]. cbn [Product.count Product.available
      Product.name Product.price Product.discount].
    split; [done|].
    destruct (Product.count product - CartItem.quantity item =? 0)%Z eqn:Hz.
    + apply Z.eqb_eq in Hz. repeat split; try done; try lia.
      intros rest. cbn [checkout_loop]. by rewrite Hi.
    + apply Z.eqb_neq in Hz. repeat split; try done; try lia.
      intros rest. cbn [checkout_loop]. by rewrite Hi.
  - apply checkout_item_Skipped in Hi. congruence.
  - apply checkout_item_Insufficient in Hi as (p & Hl' & ? & _).
    rewrite Hl in Hl'. injection Hl' as <-. lia.
Qed.

Lemma checkout_item_deducts_witness :
  exists product' r,
    checkout_item (CartItem.mk "Laptop1" 800 5 (Some BaseDiscountStrategy))
                  sample_products
      = Deducted (<["Laptop1"%string := product']> sample_products) r
    /\ Product.count product' = 15%Z
    /\ Product.available product' = true.
Proof.
  destruct (checkout_item_deducts
              (CartItem.mk "Laptop1" 800 5 (Some BaseDiscountStrategy))
              sample_products
              (Product.mk "Laptop1" 800 true 20 5))
    as (product' & r & H1 & H2 & _ & H3 & _).
  - reflexivity.
  - cbn. lia.
  - exists product', r. split; [exact H1|]. split; [exact H2|].
    apply H3. rewrite H2. cbn. lia.
Defined.

(** C1 as stated fails on the sample catalog: [Headphones1] is registered
    with count 10 and [available = False]; a checkout of 5 units succeeds
    and leaves count 5, not 0, with the flag still [false]. *)
Lemma checkout_flag_counterexample :
  exists products' log product',
    sample_products !! "Headphones1"%string
      = Some (Product.mk "Headphones1" 50 false 10 0)
    /\ checkout [CartItem.mk "Headphones1" 50 5 (Some BaseDiscountStrategy)]
                sample_products = (products', log)
    /\ last log = Some purchase_successful
    /\ products' !! "Headphones1"%string = Some product'
    /\ Product.count product' = 5%Z
    /\ Product.available product' = false
    /\ ~ (Product.available product' = false <-> Product.count product' = 0%Z).
Proof.
  eexists _, _, (Product.mk "Headphones1" 50 false 5 0).
  split; [reflexivity|]. split; [reflexivity|].
  split; [reflexivity|]. split; [reflexivity|].
  split; [reflexivity|]. split; [reflexivity|].
  cbn. intros [H _]. specialize (H eq_refl). discriminate.
Qed.

(** ** Shortage *)

(** How a shortage is handled when the bill of the cart can be computed.
    If the line items before [item] find enough stock and [item] asks for
    more than its entry has left after them, [checkout] ends with the
    not-enough-stock warning naming [item] and never logs success; every
    entry has lost what the earlier line items ordered under its name and
    nothing is given back, an entry no earlier line item names is
    unchanged, and neither [item] nor the line items after it change
    anything. *)
Lemma checkout_stops_at_first_shortage pre item post products product :
  billable (pre ++ item :: post) ->
  in_stock pre products ->
  products !! CartItem.name item = Some product ->
  (Product.count product - ordered (CartItem.name item) pre
   < CartItem.quantity item)%Z ->
  exists products1 log,
    checkout (pre ++ item :: post) products = (products1, log)
    /\ last log = Some (not_enough_stock (CartItem.name item))
    /\ (purchase_successful ∉ log)
    /\ forall n,
         match products !! n with
         | None => products1 !! n = None
         | Some p =>
             exists p1, products1 !! n = Some p1
               /\ Product.count p1 = (Product.count p - ordered n pre)%Z
               /\ (n ∉ names pre -> p1 = p)
         end.
Proof.
  intros Hpr%billable_priced Hstock Hl Hq.
  destruct (in_stock_pass _ _ Hstock) as (products1 & log1 & Hp).
  assert (checkout_item item products1
          = Insufficient (not_enough_stock (CartItem.name item))) as Hi.
  { apply checkout_item_Insufficient.
    pose proof (pass_lookup _ _ _ _ Hp (CartItem.name item)) as H.
    rewrite Hl in H. destruct H as (p1 & Hp1 & Hc & _).
    exists p1. split; [done|]. split; [lia|done]. }
  destruct (checkout_pass_shortage _ _ post _ _ _ Hpr Hp Hi)
    as (log & E & Hlast & Hno).
  exists products1, log. repeat split; try done.
  intros n. pose proof (pass_lookup _ _ _ _ Hp n) as H.
  destruct (products !! n); [|done].
  destruct H as (p1 & ? & ? & ? & _). eauto.
Qed.

(** A line item that asks for exactly what is left is served: all 20
    [Laptop1] are deducted before the shortage of [Headphones1] stops the
    checkout, and they stay deducted. *)
Example checkout_exact_stock_then_shortage :
  exists products1 log p1,
    checkout [CartItem.mk "Laptop1" 800 20 (Some BaseDiscountStrategy);
              CartItem.mk "Headphones1" 50 11 (Some BaseDiscountStrategy)]
             sample_products = (products1, log)
    /\ last log = Some (not_enough_stock "Headphones1")
    /\ products1 !! "Laptop1"%string = Some p1
    /\ Product.count p1 = 0%Z.
Proof.
  destruct (checkout_stops_at_first_shortage
              [CartItem.mk "Laptop1" 800 20 (Some BaseDiscountStrategy)]
              (CartItem.mk "Headphones1" 50 11 (Some BaseDiscountStrategy))
              [] sample_products (Product.mk "Headphones1" 50 false 10 0))
    as (products1 & log & E & Hlast & _ & Hn).
  - eexists. vm_compute. reflexivity.
  - intros [|[|k]] it p Hk Hp; cbn in Hk; try discriminate.
    injection Hk as <-. vm_compute in Hp. injection Hp as <-. cbn. lia.
  - reflexivity.
  - cbn. lia.
  - specialize (Hn "Laptop1"%string).
    change (sample_products !! "Laptop1"%string)
      with (Some (Product.mk "Laptop1" 800 true 20 5)) in Hn.
    destruct Hn as (p1 & Hp1 & Hc & _).
    exists products1, log, p1. split; [exact E|]. split; [exact Hlast|].
    split; [exact Hp1|]. rewrite Hc. reflexivity.
Qed.

(** C2, at the failing input.  The customer menu builds the cart from 5
    [Laptop1] and 20 [Headphones1].  [Headphones1] has discount 0, so the
    menu gives its line item [None] for a strategy.  [Headphones1] has 10
    units, so this is a shortage at the second line item; but showing the
    cart raises before the loop starts, the handler logs the error, no
    warning names [Headphones1], and [Laptop1] keeps its 20 units. *)
Theorem checkout_menu_cart_loop_not_reached :
  let cart_items :=
    menu_add sample_products (menu_add sample_products [] "Laptop1" 5)
             "Headphones1" 20 in
  cart_items
  = [CartItem.mk "Laptop1" 800 5 (Some (PercentageOffDiscountStrategy 10));
     CartItem.mk "Headphones1" 50 20 None]
  /\ sample_products !! "Headphones1"%string
     = Some (Product.mk "Headphones1" 50 false 10 0)
  /\ checkout cart_items sample_products
     = (sample_products,
        [(INFO, CartItemsMsg [(5%Z, "Laptop1"%string);
                              (20%Z, "Headphones1"%string)]);
         (ERROR, CheckoutErrorMsg AttributeError)])
  /\ sample_products !! "Laptop1"%string
     = Some (Product.mk "Laptop1" 800 true 20 5).
Proof.
  cbn zeta. repeat split; reflexivity.
Qed.

(** ** The outcomes of a checkout *)

(** The two outcomes of a checkout whose bill can be computed, told apart
    by the last log record.  Success, exactly when the line items find
    enough stock: no warning is logged, every registered name has lost the
    units ordered under it, and an entry named in the cart whose count is
    now 0 is unavailable.  Failure: the last record is the warning naming
    the first line item, in cart order, that asks for more than its entry
    has left; the entries have lost what the line items before it ordered
    and success is not logged. *)
Lemma checkout_two_outcomes cart_items products :
  billable cart_items ->
  exists products' log,
    checkout cart_items products = (products', log)
    /\ ((in_stock cart_items products
         /\ last log = Some purchase_successful
         /\ (forall n, not_enough_stock n ∉ log)
         /\ forall n,
              match products !! n with
              | None => products' !! n = None
              | Some p =>
                  exists p', products' !! n = Some p'
                    /\ Product.count p'
                       = (Product.count p - ordered n cart_items)%Z
                    /\ (n ∈ names cart_items -> Product.count p' = 0%Z ->
                        Product.available p' = false)
              end)
        \/ (exists pre item post product,
              cart_items = pre ++ item :: post
              /\ in_stock pre products
              /\ products !! CartItem.name item = Some product
              /\ (Product.count product - ordered (CartItem.name item) pre
                  < CartItem.quantity item)%Z
              /\ last log = Some (not_enough_stock (CartItem.name item))
              /\ (purchase_successful ∉ log)
              /\ forall n,
                   match products !! n with
                   | None => products' !! n = None
                   | Some p =>
                       exists p', products' !! n = Some p'
                         /\ Product.count p'
                            = (Product.count p - ordered n pre)%Z
                   end)).
Proof.
  intros Hpr%billable_priced.
  destruct (checkout_loop_cases cart_items products)
    as [(p2 & l & Hp)|(pre & it & post & p2 & l & -> & Hp & Hf)].
  - destruct (checkout_pass _ _ _ _ Hpr Hp) as (log & E & Hlast & Hno).
    exists p2, log. split; [exact E|]. left.
    split; [by eapply pass_in_stock|]. repeat split; try done.
    intros n. pose proof (pass_lookup _ _ _ _ Hp n) as H.
    destruct (products !! n); [|done].
    destruct H as (p' & ? & ? & _ & ?). eauto.
  - destruct (checkout_pass_shortage _ _ _ _ _ _ Hpr Hp Hf)
      as (log & E & Hlast & Hno).
    apply checkout_item_Insufficient in Hf as (q & Hl & Hq & _).
    pose proof (pass_lookup _ _ _ _ Hp (CartItem.name it)) as Hn.
    destruct (products !! CartItem.name it) as [product|] eqn:Hl0;
      [|congruence].
    destruct Hn as (q' & Hq' & Hc & _). rewrite Hl in Hq'. injection Hq' as <-.
    exists p2, log. split; [exact E|]. right.
    exists pre, it, post, product.
    split; [done|]. split; [by eapply pass_in_stock|]. split; [done|].
    split; [lia|]. split; [done|]. split; [done|].
    intros n. pose proof (pass_lookup _ _ _ _ Hp n) as H.
    destruct (products !! n); [|done].
    destruct H as (p' & ? & ? & _). eauto.
Qed.

(** C3, at the failing input.  The customer menu builds the cart from one
    [Headphones1], of which there are 10.  The line item holds [None] for a
    strategy, showing the cart raises, and the checkout ends with the error
    record of the handler: neither success, which the stock would allow,
    nor a warning naming a product; the catalog is unchanged. *)
Theorem checkout_menu_cart_error_outcome :
  let cart_items := menu_add sample_products [] "Headphones1" 1 in
  cart_items = [CartItem.mk "Headphones1" 50 1 None]
  /\ sample_products !! "Headphones1"%string
     = Some (Product.mk "Headphones1" 50 false 10 0)
  /\ checkout cart_items sample_products
     = (sample_products,
        [(INFO, CartItemsMsg [(1%Z, "Headphones1"%string)]);
         (ERROR, CheckoutErrorMsg AttributeError)])
  /\ last (checkout cart_items sample_products).2 <> Some purchase_successful
  /\ forall n,
       last (checkout cart_items sample_products).2
       <> Some (not_enough_stock n).
Proof.
  cbn zeta. split; [reflexivity|]. split; [reflexivity|].
  split; [reflexivity|]. split; [discriminate|]. intros n. discriminate.
Qed.

(** ** Names that are not registered *)



(** ** The checkout scenarios of the specification, on the sample catalog *)

(** Five of the 20 [Laptop1]: success, 15 left, still available. *)
Example checkout_five_laptops :
  let cart_items := menu_add sample_products [] "Laptop1" 5 in
  (checkout cart_items sample_products).1 !! "Laptop1"%string
  = Some (Product.mk "Laptop1" 800 true 15 5)
  /\ last (checkout cart_items sample_products).2 = Some purchase_successful.
Proof. split; reflexivity. Qed.

(** Twenty-five of the 20 [Laptop1]: the warning names it, nothing changes. *)
Example checkout_too_many_laptops :
  let cart_items := menu_add sample_products [] "Laptop1" 25 in
  (checkout cart_items sample_products).1 = sample_products
  /\ last (checkout cart_items sample_products).2
     = Some (not_enough_stock "Laptop1").
Proof. split; reflexivity. Qed.

(** All 20 [Laptop1]: success, none left, no longer available. *)
Example checkout_all_laptops :
  let cart_items := menu_add sample_products [] "Laptop1" 20 in
  (checkout cart_items sample_products).1 !! "Laptop1"%string
  = Some (Product.mk "Laptop1" 800 false 0 5)
  /\ last (checkout cart_items sample_products).2 = Some purchase_successful.
Proof. split; reflexivity. Qed.

(** * Cart operations *)

(** ** The removal loop

    The index-walking loop computes [remove_scan] on the part of the list
    it has not visited, once it has fuel for every remaining position. *)
Lemma remove_loop_scan fuel n r i (cart_items : cart) :
  length cart_items - i <= fuel ->
  remove_loop fuel n r i cart_items
  = take i cart_items ++ remove_scan n r (drop i cart_items).
Proof.
  revert i cart_items. induction fuel as [|fuel IH]; intros i items Hf.
  - cbn. rewrite drop_ge, take_ge by lia. cbn. by rewrite app_nil_r.
  - cbn [remove_loop]. destruct (items !! i) as [item|] eqn:Hi.
    2:{ apply lookup_ge_None in Hi. rewrite drop_ge, take_ge by lia.
        cbn. by rewrite app_nil_r. }
    pose proof (lookup_lt_Some _ _ _ Hi) as Hlt.
    rewrite (drop_S _ _ _ Hi). cbn [remove_scan].
    destruct (String.eqb (CartItem.name item) n).
    + cbn zeta. destruct (CartItem.quantity item - r <=? 0)%Z.
      * rewrite IH by (rewrite length_delete by eauto; lia).
        rewrite delete_take_drop.
        rewrite take_app, drop_app, length_take.
        replace (S i - i `min` length items) with 1 by lia.
        rewrite (take_ge (take i items)) by (rewrite length_take; lia).
        rewrite (drop_ge (take i items)) by (rewrite length_take; lia).
        destruct (drop (S i) items) as [|s rest']; cbn.
        -- by rewrite !app_nil_r.
        -- rewrite drop_0. by rewrite <- app_assoc.
      * rewrite IH by (rewrite length_insert; lia).
        rewrite (take_S_r _ _ (CartItem.set_quantity (CartItem.quantity item - r) item))
          by (by apply list_lookup_insert_eq).
        rewrite take_insert_ge by lia.
        rewrite drop_insert_lt by lia. by rewrite <- app_assoc.
    + rewrite IH by lia. rewrite (take_S_r _ _ _ Hi). by rewrite <- app_assoc.
Qed.

Lemma remove_item_scan (cart_items : cart) n r :
  remove_item cart_items n (Some r) = remove_scan n r cart_items.
Proof.
  unfold remove_item. rewrite remove_loop_scan by lia. done.
Qed.

(** Fuel beyond the length of the list changes nothing: the loop has
    ended by then. *)
Lemma remove_loop_fuel fuel n r (cart_items : cart) :
  length cart_items <= fuel ->
  remove_loop fuel n r 0 cart_items = remove_item cart_items n (Some r).
Proof.
  intros. rewrite remove_item_scan, remove_loop_scan by lia. done.
Qed.

Lemma remove_scan_Forall (P : CartItem.t -> Prop) n r (cart_items : cart) :
  (forall item, P item ->
     (0 < CartItem.quantity item - r)%Z ->
     P (CartItem.set_quantity (CartItem.quantity item - r) item)) ->
  Forall P cart_items -> Forall P (remove_scan n r cart_items).
Proof.
  intros HP.
  assert (forall k (l : cart), length l <= k ->
            Forall P l -> Forall P (remove_scan n r l)) as H.
  { induction k as [|k IH]; intros [|item rest] Hk Hall; cbn in *;
      try done; try lia.
    apply Forall_cons in Hall as [Hi Hrest].
    destruct (String.eqb (CartItem.name item) n).
    - destruct (CartItem.quantity item - r <=? 0)%Z eqn:Hq.
      + destruct rest as [|s rest']; [done|].
        apply Forall_cons in Hrest as [Hs Hrest']. cbn in Hk.
        constructor; [done|]. apply IH; [lia|done].
      + apply Z.leb_gt in Hq. constructor; [by apply HP|].
        apply IH; [lia|done].
    - constructor; [done|]. apply IH; [lia|done]. }
  intros. by eapply H.
Qed.

Lemma update_quantity_Forall (P : CartItem.t -> Prop) (cart_items : cart) n q :
  (forall item, P item -> P (CartItem.set_quantity q item)) ->
  Forall P cart_items -> Forall P (update_quantity cart_items n q).
Proof.
  intros HP. induction 1 as [|item rest Hi Hrest IH]; cbn; [done|].
  destruct (String.eqb (CartItem.name item) n); constructor; auto.
Qed.

Lemma remove_scan_no_match n r (cart_items : cart) :
  n ∉ names cart_items -> remove_scan n r cart_items = cart_items.
Proof.
  induction cart_items as [|item rest IH]; cbn; [done|].
  intros Hn. apply not_elem_of_cons in Hn as [Hne Hn].
  assert (CartItem.name item ≠ n) as Hne' by congruence.
  apply String.eqb_neq in Hne'. rewrite Hne'. by rewrite IH.
Qed.

(** X11.  With a single line item of the name, the loop does what the
    specification says: the line item loses the quantity, and is deleted
    when that brings it to 0 or below. *)
Lemma remove_item_single_match pre item post r :
  CartItem.name item ∉ names pre ->
  CartItem.name item ∉ names post ->
  remove_item (pre ++ item :: post) (CartItem.name item) (Some r)
  = if (CartItem.quantity item - r <=? 0)%Z
    then pre ++ post
    else pre ++ CartItem.set_quantity (CartItem.quantity item - r) item :: post.
Proof.
  intros Hpre Hpost. rewrite remove_item_scan.
  induction pre as [|it pre IH]; cbn.
  - rewrite String.eqb_refl.
    destruct (CartItem.quantity item - r <=? 0)%Z.
    + destruct post as [|s post']; [done|]. cbn in Hpost.
      apply not_elem_of_cons in Hpost as [_ Hpost].
      by rewrite remove_scan_no_match.
    + by rewrite remove_scan_no_match.
  - cbn in Hpre. apply not_elem_of_cons in Hpre as [Hne Hpre].
    assert (CartItem.name it ≠ CartItem.name item) as Hne' by congruence.
    apply String.eqb_neq in Hne'. rewrite Hne'. rewrite (IH Hpre).
    by destruct (CartItem.quantity item - r <=? 0)%Z.
Qed.

(** Deleting a line item makes the loop step over the next one, whatever
    its name. *)
Lemma remove_item_delete_skips item next rest r :
  (CartItem.quantity item - r <= 0)%Z ->
  remove_item (item :: next :: rest) (CartItem.name item) (Some r)
  = next :: remove_item rest (CartItem.name item) (Some r).
Proof.
  intros Hq. rewrite !remove_item_scan. cbn.
  rewrite String.eqb_refl. apply Z.leb_le in Hq. by rewrite Hq.
Qed.

(** ** Quantities above 0 *)

Lemma add_item_positive `{NamedPriced A} (cart_items : cart) (product : A)
    quantity discount_strategy :
  positive_quantities cart_items -> (0 < quantity)%Z ->
  positive_quantities (add_item cart_items product quantity discount_strategy).
Proof.
  intros Hpos Hq. unfold add_item. apply Forall_app. split; [done|].
  by repeat constructor.
Qed.

Lemma update_quantity_positive (cart_items : cart) product_name new_quantity :
  positive_quantities cart_items -> (0 < new_quantity)%Z ->
  positive_quantities (update_quantity cart_items product_name new_quantity).
Proof. intros Hpos Hq. by apply update_quantity_Forall. Qed.

Lemma remove_item_positive (cart_items : cart) product_name remove_quantity :
  positive_quantities cart_items ->
  positive_quantities (remove_item cart_items product_name remove_quantity).
Proof.
  intros Hpos. destruct remove_quantity as [r|].
  - rewrite remove_item_scan. apply remove_scan_Forall; [|done].
    intros item _ Hq. exact Hq.
  - cbn. unfold positive_quantities in *. rewrite Forall_forall in Hpos |- *.
    intros item Hin. apply Hpos.
    apply list_elem_of_In, filter_In in Hin as [Hin _].
    by apply list_elem_of_In.
Qed.

(** C4, as amended.  Start from a cart in which every line item has a
    quantity above 0, the empty cart for one, and apply any sequence of
    [add_item], [update_quantity] and [remove_item] calls in which the
    quantities given to [add_item] and [update_quantity] are above 0: every
    line item of the cart reached has a quantity above 0.  [remove_item]
    needs no condition: a line item it brings to 0 or below is deleted. *)
Theorem cart_quantities_stay_positive (cart_items : cart) ops :
  positive_quantities cart_items ->
  Forall positive_argument ops ->
  positive_quantities (foldl apply_op cart_items ops).
Proof.
  intros Hpos Hops. revert cart_items Hpos.
  induction Hops as [|op ops Hop _ IH]; intros cart_items Hpos; cbn; [done|].
  apply IH. destruct op as [product q ds|n q|n r]; cbn in *.
  - by apply add_item_positive.
  - by apply update_quantity_positive.
  - by apply remove_item_positive.
Qed.

Lemma cart_quantities_stay_positive_witness :
  positive_quantities
    (foldl apply_op []
       [AddItem (Product.mk "Laptop1" 800 true 20 5) 5 None;
        UpdateQuantity "Laptop1" 3;
        RemoveItem "Laptop1" (Some 1%Z);
        RemoveItem "Laptop1" (Some 2%Z)]).
Proof.
  apply cart_quantities_stay_positive.
  - constructor.
  - repeat constructor; cbn; lia.
Defined.

(** C4 as stated fails: after one [Laptop1] is added, [update_quantity] with
    0 leaves the line item in the cart with quantity 0. *)
Lemma update_quantity_zero_counterexample :
  let cart_items :=
    add_item [] (Product.mk "Laptop1" 800 true 20 5) 1
             (Some (PercentageOffDiscountStrategy 10)) in
  positive_quantities cart_items
  /\ update_quantity cart_items "Laptop1" 0
     = [CartItem.mk "Laptop1" 800 0 (Some (PercentageOffDiscountStrategy 10))]
  /\ ~ positive_quantities (update_quantity cart_items "Laptop1" 0).
Proof.
  cbn zeta. split; [repeat constructor|]. split; [reflexivity|].
  intros H. apply Forall_cons in H as [H _]. cbn in H. lia.
Qed.

(** ** Removing a quantity *)

(** C5, at the failing input.  Two line items of [Laptop1], of 1 and of 5
    units; removing 2 deletes the first, and the second, which has moved
    into the place the iterator has just left, is never visited: it keeps
    its 5 units instead of going down to 3. *)
Theorem remove_item_skips_next_match :
  remove_item
    [CartItem.mk "Laptop1" 800 1 (Some (PercentageOffDiscountStrategy 10));
     CartItem.mk "Laptop1" 800 5 (Some (PercentageOffDiscountStrategy 10))]
    "Laptop1" (Some 2%Z)
  = [CartItem.mk "Laptop1" 800 5 (Some (PercentageOffDiscountStrategy 10))].
Proof. reflexivity. Qed.

(** ** Removing a name *)

(** C6.  [remove_item] without a quantity leaves no line item of that name
    in the cart, and the line items of other names are the same ones, in
    the same order and number. *)
Theorem remove_item_all (cart_items : cart) product_name :
  let cart_items' := remove_item cart_items product_name None in
  (forall item, item ∈ cart_items' -> CartItem.name item <> product_name)
  /\ (forall item, CartItem.name item <> product_name ->
        (item ∈ cart_items' <-> item ∈ cart_items))
  /\ List.filter
       (fun item => negb (String.eqb (CartItem.name item) product_name))
       cart_items'
     = List.filter
         (fun item => negb (String.eqb (CartItem.name item) product_name))
         cart_items
  /\ cart_items' `sublist_of` cart_items.
Proof.
  cbn zeta. unfold remove_item. repeat split.
  - intros item Hin%list_elem_of_In%filter_In. destruct Hin as [_ Hn].
    apply negb_true_iff, String.eqb_neq in Hn. done.
  - intros Hin%list_elem_of_In%filter_In. apply list_elem_of_In. tauto.
  - intros Hin. apply list_elem_of_In, filter_In. split.
    + by apply list_elem_of_In.
    + by apply negb_true_iff, String.eqb_neq.
  - induction cart_items as [|item rest IH]; cbn; [done|].
    destruct (negb (String.eqb (CartItem.name item) product_name)) eqn:E; cbn.
    + by rewrite E, IH.
    + done.
  - induction cart_items as [|item rest IH]; cbn; [done|].
    destruct (negb (String.eqb (CartItem.name item) product_name)).
    + by constructor.
    + by constructor.
Qed.

(** * Totals *)

Lemma calculate_total_line_total item :
  CartItem.calculate_total item = line_total item.
Proof. reflexivity. Qed.

Lemma sum_from_sum_of_line_totals (cart_items : cart) acc :
  result_eq (sum_from acc cart_items)
    (match sum_of_line_totals cart_items with
     | Return s => Return (acc + s)%Q
     | Raise e => Raise e
     end).
Proof.
  revert acc. induction cart_items as [|item rest IH]; intros acc; cbn.
  - symmetry. apply Qplus_0_r.
  - rewrite calculate_total_line_total.
    destruct (line_total item) as [x|e]; [|done].
    specialize (IH (acc + x)%Q).
    destruct (sum_of_line_totals rest) as [s|e]; [|done].
    destruct (sum_from (acc + x) rest) as [t|e]; [|done].
    cbn in *. rewrite IH. symmetry. apply Qplus_assoc.
Qed.

(** With a strategy in every line item both sides are numbers. *)
Lemma calculate_total_bill_priced (cart_items : cart) :
  priced cart_items ->
  exists total s,
    calculate_total_bill cart_items = Return total
    /\ sum_of_line_totals cart_items = Return s
    /\ (total == s)%Q.
Proof.
  intros Hp. destruct (sum_from_priced _ 0%Q Hp) as [total Ht].
  pose proof (sum_from_sum_of_line_totals cart_items 0%Q) as H.
  unfold calculate_total_bill. rewrite Ht in H |- *.
  destruct (sum_of_line_totals cart_items) as [s|e]; [|done].
  exists total, s. split; [done|]. split; [done|].
  cbn in H. rewrite H. apply Qplus_0_l.
Qed.

(** C7.  [calculate_total_bill] agrees with the sum, over all line items, of
    the discounted unit price times the quantity: both are the same number,
    or both raise because a line item holds no strategy.  For a single line
    item added to the empty cart the bill is the discounted price times the
    quantity. *)
Theorem calculate_total_bill_sum (cart_items : cart) :
  result_eq (calculate_total_bill cart_items) (sum_of_line_totals cart_items)
  /\ forall `{NamedPriced A} (product : A) quantity discount_strategy,
       result_eq
         (calculate_total_bill
            (add_item [] product quantity discount_strategy))
         match discount_strategy with
         | Some policy =>
             Return (apply_discount policy (price_of product)
                     * inject_Z quantity)%Q
         | None => Raise AttributeError
         end.
Proof.
  split.
  - unfold calculate_total_bill.
    pose proof (sum_from_sum_of_line_totals cart_items 0%Q) as H.
    destruct (sum_of_line_totals cart_items) as [s|e]; [|done].
    destruct (sum_from 0 cart_items) as [t|e]; [|done].
    cbn in *. rewrite H. apply Qplus_0_l.
  - intros A ? product quantity [policy|]; cbn; [apply Qplus_0_l|done].
Qed.

(** C8.  Register a product, clone it with quantity [quantity] and the
    identity strategy: the line item is returned, carries that name and
    quantity, and its total is [price * quantity]. *)
Theorem register_clone_total products name price available discount quantity :
  exists item,
    ProductPrototype.clone
      (ProductPrototype.register_product products name price available discount)
      name quantity (Some BaseDiscountStrategy) = Return item
    /\ CartItem.name item = name
    /\ CartItem.quantity item = quantity
    /\ CartItem.calculate_total item = Return (price * inject_Z quantity)%Q.
Proof.
  unfold ProductPrototype.clone, ProductPrototype.register_product.
  rewrite lookup_insert_eq. eexists. split; [reflexivity|]. done.
Qed.

(** * Line items and catalog entries as objects *)

(** ** The value-level catalog is the erasure of the store *)

Import Objects.

Lemma well_formed_empty : well_formed (mkState ∅ ∅).
Proof. split; intros *; cbn; by rewrite lookup_empty. Qed.

Lemma lookup_fresh_ne (h : gmap positive object) l o :
  h !! l = Some o -> l <> fresh (dom h).
Proof.
  intros Hl ->. pose proof (is_fresh (dom h)) as Hf.
  apply not_elem_of_dom in Hf. congruence.
Qed.

Lemma well_formed_register_product st name price available discount :
  well_formed st ->
  well_formed (register_product st name price available discount).
Proof.
  intros [Hobj Hinj]. unfold register_product. cbn. split; cbn.
  - intros n l. destruct (decide (name = n)) as [<-|Hne].
    + rewrite lookup_insert_eq. intros [= <-]. rewrite lookup_insert_eq. eauto.
    + rewrite lookup_insert_ne by done. intros Hl.
      destruct (Hobj _ _ Hl) as [p Hp]. exists p.
      rewrite lookup_insert_ne; [done|].
      intros E. by apply (lookup_fresh_ne _ _ _ Hp).
  - intros n1 n2 l.
    destruct (decide (name = n1)) as [<-|Hne1];
      destruct (decide (name = n2)) as [<-|Hne2]; try done.
    + rewrite lookup_insert_eq, lookup_insert_ne by done. intros [= <-] Hl.
      destruct (Hobj _ _ Hl) as [p Hp]. by destruct (lookup_fresh_ne _ _ _ Hp).
    + rewrite lookup_insert_eq, lookup_insert_ne by done. intros Hl [= <-].
      destruct (Hobj _ _ Hl) as [p Hp]. by destruct (lookup_fresh_ne _ _ _ Hp).
    + rewrite !lookup_insert_ne by done. apply Hinj.
Qed.

Lemma erase_lookup st name :
  erase st !! name = read_product st name.
Proof.
  unfold erase, read_product. rewrite lookup_omap.
  by destruct (products st !! name).
Qed.

Lemma erase_register_product st name price available discount :
  well_formed st ->
  erase (register_product st name price available discount)
  = ProductPrototype.register_product (erase st) name price available discount.
Proof.
  intros [Hobj _]. apply map_eq. intros n.
  unfold ProductPrototype.register_product.
  rewrite erase_lookup. unfold register_product, read_product. cbn.
  destruct (decide (name = n)) as [<-|Hne].
  - by rewrite !lookup_insert_eq.
  - rewrite !lookup_insert_ne by done. rewrite erase_lookup.
    unfold read_product. destruct (products st !! n) as [l|] eqn:Hl; [|done].
    destruct (Hobj _ _ Hl) as [p Hp].
    rewrite lookup_insert_ne; [done|].
    intros E. by apply (lookup_fresh_ne _ _ _ Hp).
Qed.

Lemma erase_write_product st name f :
  well_formed st ->
  erase (write_product st name f) = alter f name (erase st).
Proof.
  intros [Hobj Hinj]. apply map_eq. intros n.
  rewrite lookup_alter, !erase_lookup.
  unfold write_product, read_product.
  destruct (products st !! name) as [l|] eqn:Hl.
  - destruct (Hobj _ _ Hl) as [p Hp]. rewrite Hp. cbn.
    destruct (decide (name = n)) as [<-|Hne].
    + by rewrite Hl, lookup_insert_eq.
    + destruct (products st !! n) as [l'|] eqn:Hl'; [|done].
      rewrite lookup_insert_ne; [done|].
      intros <-. apply Hne. by eapply Hinj.
  - destruct (decide (name = n)) as [<-|Hne]; [by rewrite Hl|done].
Qed.

Lemma erase_clone st name quantity discount_strategy li st1 :
  well_formed st ->
  Objects.clone st name quantity discount_strategy = Return (li, st1) ->
  exists item,
    ProductPrototype.clone (erase st) name quantity discount_strategy
    = Return item
    /\ read_item st1 li = Some item
    /\ erase st1 = erase st.
Proof.
  intros [Hobj _]. unfold Objects.clone, deepcopy, ProductPrototype.clone.
  rewrite erase_lookup. unfold read_product.
  destruct (products st !! name) as [l|]; [|discriminate].
  destruct (heap st !! l) as [[p|c]|]; try discriminate.
  cbn. intros [= <- <-]. eexists. split; [reflexivity|]. split.
  - unfold read_item. cbn. by rewrite lookup_insert_eq.
  - apply map_eq. intros n. rewrite !erase_lookup. unfold read_product. cbn.
    destruct (products st !! n) as [l'|] eqn:Hl'; [|done].
    destruct (Hobj _ _ Hl') as [p' Hp'].
    rewrite lookup_insert_ne.
    2:{ intros E. eapply lookup_fresh_ne; [|by symmetry].
        rewrite lookup_insert_ne; [exact Hp'|].
        intros E'. by apply (lookup_fresh_ne _ _ _ Hp'). }
    rewrite lookup_insert_ne; [done|].
    intros E'. by apply (lookup_fresh_ne _ _ _ Hp').
Qed.

(** [clone] returns for every registered name. *)
Lemma clone_registered_returns st name quantity discount_strategy :
  well_formed st ->
  is_Some (products st !! name) ->
  exists li st1,
    Objects.clone st name quantity discount_strategy = Return (li, st1).
Proof.
  intros [Hobj _] [l Hl]. unfold Objects.clone, deepcopy. rewrite Hl.
  destruct (Hobj _ _ Hl) as [p ->]. cbn. eauto.
Qed.

(** ** A clone shares nothing with its catalog entry *)

Lemma write_product_keeps_item st n f li item :
  read_item st li = Some item ->
  read_item (write_product st n f) li = Some item.
Proof.
  unfold write_product, read_item. intros Hi.
  destruct (products st !! n) as [l|]; [|done].
  destruct (heap st !! l) as [[p|c]|] eqn:Hl; try done. cbn.
  rewrite lookup_insert_ne; [done|]. intros ->. by rewrite Hl in Hi.
Qed.

Lemma register_product_keeps_item st name price available discount li item :
  read_item st li = Some item ->
  read_item (register_product st name price available discount) li = Some item.
Proof.
  unfold register_product, read_item. cbn. intros Hi.
  rewrite lookup_insert_ne; [done|]. intros E.
  destruct (heap st !! li) as [o|] eqn:Hl; [|done].
  by apply (lookup_fresh_ne _ _ _ Hl).
Qed.

Lemma edits_keep_item edits st li item :
  read_item st li = Some item ->
  read_item (foldl apply_edit st edits) li = Some item.
Proof.
  revert st. induction edits as [|e edits IH]; intros st Hi; cbn; [done|].
  apply IH. destruct e; cbn.
  - by apply write_product_keeps_item.
  - by apply register_product_keeps_item.
Qed.

Lemma write_product_read st name f l p :
  products st !! name = Some l ->
  heap st !! l = Some (ProductObj p) ->
  read_product (write_product st name f) name = Some (f p).
Proof.
  intros Hl Hp. unfold write_product, read_product. rewrite Hl, Hp. cbn.
  by rewrite Hl, lookup_insert_eq.
Qed.

(** C9.  When [clone] returns a line item for a registered name, the item
    holds the entry's name and price at that moment, with the quantity and
    strategy given.  An assignment to the entry afterwards changes the
    entry and not the item; and after any sequence of assignments to
    catalog entries and of registrations the item still holds the same
    name, price and quantity, so its computed total is the same. *)
Theorem clone_independent st name quantity discount_strategy li st1 :
  Objects.clone st name quantity discount_strategy = Return (li, st1) ->
  exists product,
    read_product st name = Some product
    /\ let item := CartItem.mk (Product.name product) (Product.price product)
                               quantity discount_strategy in
       read_item st1 li = Some item
       /\ (forall f,
             read_product (write_product st1 name f) name = Some (f product)
             /\ read_item (write_product st1 name f) li = Some item)
       /\ forall edits,
            read_item (foldl apply_edit st1 edits) li = Some item
            /\ CartItem.calculate_total
                 <$> read_item (foldl apply_edit st1 edits) li
               = Some (CartItem.calculate_total item).
Proof.
  unfold Objects.clone, deepcopy, read_product.
  destruct (products st !! name) as [l|] eqn:Hl; [|discriminate].
  destruct (heap st !! l) as [[p|c]|] eqn:Hp; try discriminate.
  cbn. intros [= <- <-]. exists p. split; [done|].
  set (h1 := <[fresh (dom (heap st)) := ProductObj p]> (heap st)).
  set (item := CartItem.mk (Product.name p) (Product.price p)
                 quantity discount_strategy).
  set (st1 := {| heap := <[fresh (dom h1) := CartItemObj item]> h1;
                 products := products st |}).
  assert (read_item st1 (fresh (dom h1)) = Some item) as Hr.
  { unfold read_item, st1. cbn. by rewrite lookup_insert_eq. }
  assert (h1 !! l = Some (ProductObj p)) as Hp1.
  { unfold h1. rewrite lookup_insert_ne; [done|].
    intros E. by apply (lookup_fresh_ne _ _ _ Hp). }
  assert (heap st1 !! l = Some (ProductObj p)) as Hp2.
  { unfold st1. cbn. rewrite lookup_insert_ne; [done|].
    intros E. by apply (lookup_fresh_ne _ _ _ Hp1). }
  split; [exact Hr|]. split.
  - intros f. split.
    + by apply (write_product_read st1 name f l p).
    + by apply write_product_keeps_item.
  - intros edits. rewrite (edits_keep_item edits _ _ _ Hr). done.
Qed.

Lemma clone_independent_witness :
  let st := register_product (mkState ∅ ∅) "Laptop1" 800 true 5 in
  exists li st1,
    Objects.clone st "Laptop1" 3 (Some BaseDiscountStrategy) = Return (li, st1)
    /\ Product.price
         <$> read_product
               (write_product st1 "Laptop1" (Product.set_price 999)) "Laptop1"
       = Some 999%Q
    /\ read_item (write_product st1 "Laptop1" (Product.set_price 999)) li
       = Some (CartItem.mk "Laptop1" 800 3 (Some BaseDiscountStrategy)).
Proof.
  cbn zeta.
  edestruct (clone_independent
               (register_product (mkState ∅ ∅) "Laptop1" 800 true 5)
               "Laptop1" 3 (Some BaseDiscountStrategy))
    as (product & Hread & Hitem & Hwrite & _).
  - vm_compute. reflexivity.
  - vm_compute in Hread. injection Hread as <-.
    destruct (Hwrite (Product.set_price 999)) as [H1 H2].
    eexists _, _. split; [vm_compute; reflexivity|].
    split; [by rewrite H1|exact H2].
Defined.

(** * Further properties of the code *)

(** ** Discount strategies *)

(** X1.  A percentage between 0 and 100 takes a price that is not negative
    to a price between 0 and the original one. *)
Theorem apply_discount_percentage_bounds percentage price :
  (0 <= price)%Q -> (0 <= percentage)%Q -> (percentage <= 100)%Q ->
  (0 <= apply_discount (PercentageOffDiscountStrategy percentage) price)%Q
  /\ (apply_discount (PercentageOffDiscountStrategy percentage) price
      <= price)%Q.
Proof.
  intros Hp H0 H100. cbn. unfold Qdiv. change (/ 100)%Q with (1 # 100)%Q.
  split; nra.
Qed.

Lemma apply_discount_percentage_bounds_witness :
  (0 <= apply_discount (PercentageOffDiscountStrategy 10) 800)%Q
  /\ (apply_discount (PercentageOffDiscountStrategy 10) 800 <= 800)%Q.
Proof.
  apply apply_discount_percentage_bounds; lra.
Defined.



(** ** The bill *)



(** ** Changing and removing line items *)

(** X6.  [update_quantity] changes the first line item of the name and no
    other: later line items of the same name keep their quantity. *)
Theorem update_quantity_first_match pre item post new_quantity :
  CartItem.name item ∉ names pre ->
  update_quantity (pre ++ item :: post) (CartItem.name item) new_quantity
  = pre ++ CartItem.set_quantity new_quantity item :: post.
Proof.
  intros Hpre. induction pre as [|it pre IH]; cbn.
  - by rewrite String.eqb_refl.
  - cbn in Hpre. apply not_elem_of_cons in Hpre as [Hne Hpre].
    assert (CartItem.name it ≠ CartItem.name item) as Hne' by congruence.
    apply String.eqb_neq in Hne'. rewrite Hne'. by rewrite IH.
Qed.

Lemma update_quantity_first_match_witness :
  update_quantity
    [CartItem.mk "Headphones1" 50 1 None;
     CartItem.mk "Laptop1" 800 1 None;
     CartItem.mk "Laptop1" 800 5 None] "Laptop1" 9
  = [CartItem.mk "Headphones1" 50 1 None;
     CartItem.mk "Laptop1" 800 9 None;
     CartItem.mk "Laptop1" 800 5 None].
Proof.
  apply (update_quantity_first_match
           [CartItem.mk "Headphones1" 50 1 None]
           (CartItem.mk "Laptop1" 800 1 None)
           [CartItem.mk "Laptop1" 800 5 None] 9).
  cbn. intros [H|H]%elem_of_cons; [discriminate|]. by apply elem_of_nil in H.
Defined.

(** X7.  [update_quantity] for a name that is not in the cart leaves the
    cart as it is. *)
Theorem update_quantity_unknown_name (cart_items : cart) product_name
    new_quantity :
  product_name ∉ names cart_items ->
  update_quantity cart_items product_name new_quantity = cart_items.
Proof.
  induction cart_items as [|item rest IH]; cbn; [done|].
  intros Hn. apply not_elem_of_cons in Hn as [Hne Hn].
  assert (CartItem.name item ≠ product_name) as Hne' by congruence.
  apply String.eqb_neq in Hne'. rewrite Hne'. by rewrite IH.
Qed.

Lemma update_quantity_unknown_name_witness :
  update_quantity [CartItem.mk "Laptop1" 800 1 None] "Headphones1" 4
  = [CartItem.mk "Laptop1" 800 1 None].
Proof.
  apply update_quantity_unknown_name.
  cbn. intros [H|H]%elem_of_cons; [discriminate|]. by apply elem_of_nil in H.
Defined.

Lemma remove_scan_others n r (cart_items : cart) :
  List.filter (fun item => negb (String.eqb (CartItem.name item) n))
              (remove_scan n r cart_items)
  = List.filter (fun item => negb (String.eqb (CartItem.name item) n))
                cart_items.
Proof.
  assert (forall k (l : cart), length l <= k ->
            List.filter (fun item => negb (String.eqb (CartItem.name item) n))
                        (remove_scan n r l)
            = List.filter (fun item => negb (String.eqb (CartItem.name item) n)) l)
    as H.
  { induction k as [|k IH]; intros [|item rest] Hk; cbn in *; try done; try lia.
    destruct (String.eqb (CartItem.name item) n) eqn:E; cbn.
    - destruct (CartItem.quantity item - r <=? 0)%Z.
      + destruct rest as [|s rest']; [done|]. cbn in *.
        destruct (negb (String.eqb (CartItem.name s) n)); rewrite IH by lia; done.
      + cbn. rewrite E. cbn. apply IH. lia.
    - rewrite E. cbn. f_equal. apply IH. lia. }
  by eapply H.
Qed.

(** X8.  [remove_item], with or without a quantity, never removes or
    changes a line item of another name: those stay, in the same order. *)
Theorem remove_item_keeps_other_names (cart_items : cart) product_name
    remove_quantity :
  List.filter
    (fun item => negb (String.eqb (CartItem.name item) product_name))
    (remove_item cart_items product_name remove_quantity)
  = List.filter
      (fun item => negb (String.eqb (CartItem.name item) product_name))
      cart_items.
Proof.
  destruct remove_quantity as [r|].
  - rewrite remove_item_scan. apply remove_scan_others.
  - cbn. induction cart_items as [|item rest IH]; cbn; [done|].
    destruct (negb (String.eqb (CartItem.name item) product_name)) eqn:E; cbn.
    + by rewrite E, IH.
    + done.
Qed.

Lemma set_quantity_same item :
  CartItem.set_quantity (CartItem.quantity item) item = item.
Proof. by destruct item. Qed.

(** X9.  Removing the quantity 0, which the customer menu offers as "remove
    all", removes nothing from a cart whose quantities are above 0. *)
Theorem remove_item_zero (cart_items : cart) product_name :
  positive_quantities cart_items ->
  remove_item cart_items product_name (Some 0%Z) = cart_items.
Proof.
  intros Hpos. rewrite remove_item_scan.
  induction Hpos as [|item rest Hq _ IH]; cbn; [done|].
  destruct (String.eqb (CartItem.name item) product_name).
  - rewrite Z.sub_0_r.
    destruct (CartItem.quantity item <=? 0)%Z eqn:E.
    + apply Z.leb_le in E. lia.
    + by rewrite set_quantity_same, IH.
  - by rewrite IH.
Qed.

Lemma remove_item_zero_witness :
  remove_item [CartItem.mk "Laptop1" 800 5 None] "Laptop1" (Some 0%Z)
  = [CartItem.mk "Laptop1" 800 5 None].
Proof.
  apply remove_item_zero. repeat constructor.
Defined.

(** X10.  [remove_item] for a name that is not in the cart leaves the cart
    as it is, with or without a quantity. *)
Theorem remove_item_unknown_name (cart_items : cart) product_name
    remove_quantity :
  product_name ∉ names cart_items ->
  remove_item cart_items product_name remove_quantity = cart_items.
Proof.
  intros Hn. destruct remove_quantity as [r|].
  - rewrite remove_item_scan. by apply remove_scan_no_match.
  - cbn. induction cart_items as [|item rest IH]; cbn; [done|].
    cbn in Hn. apply not_elem_of_cons in Hn as [Hne Hn].
    assert (CartItem.name item ≠ product_name) as Hne' by congruence.
    apply String.eqb_neq in Hne'. rewrite Hne'. cbn. by rewrite IH.
Qed.

Lemma remove_item_unknown_name_witness :
  remove_item [CartItem.mk "Laptop1" 800 5 None] "Headphones1" (Some 9%Z)
  = [CartItem.mk "Laptop1" 800 5 None].
Proof.
  apply remove_item_unknown_name.
  cbn. intros [H|H]%elem_of_cons; [discriminate|]. by apply elem_of_nil in H.
Defined.

Lemma remove_item_single_match_witness :
  remove_item
    [CartItem.mk "Headphones1" 50 1 None; CartItem.mk "Laptop1" 800 5 None]
    "Laptop1" (Some 2%Z)
  = [CartItem.mk "Headphones1" 50 1 None; CartItem.mk "Laptop1" 800 3 None].
Proof.
  apply (remove_item_single_match
           [CartItem.mk "Headphones1" 50 1 None]
           (CartItem.mk "Laptop1" 800 5 None) [] 2).
  - cbn. intros [H|H]%elem_of_cons; [discriminate|]. by apply elem_of_nil in H.
  - cbn. apply not_elem_of_nil.
Defined.

(** ** What a checkout can do to the catalog *)

Lemma checkout_loop_entry (cart_items : cart) products n p :
  products !! n = Some p ->
  exists p',
    (checkout_loop cart_items products).1 !! n = Some p'
    /\ Product.name p' = Product.name p
    /\ Product.price p' = Product.price p
    /\ Product.discount p' = Product.discount p
    /\ (Product.available p' = true -> Product.available p = true)
    /\ (0 <= Product.count p -> 0 <= Product.count p')%Z
    /\ (nonnegative_quantities cart_items ->
        Product.count p' <= Product.count p)%Z
    /\ (n ∉ names cart_items -> p' = p).
Proof.
  revert products p. induction cart_items as [|item rest IH]; intros products p Hl.
  - exists p. cbn. repeat split; try done; lia.
  - cbn [checkout_loop].
    destruct (checkout_item item products) as [p1 r| |r] eqn:Hi.
    + apply checkout_item_Deducted in Hi as (product & Hl' & Hq & Hp1 & _).
      cbn zeta in Hp1.
      destruct (decide (CartItem.name item = n)) as [E|Hne].
      * rewrite E, Hl in Hl'. injection Hl' as <-.
        assert (p1 !! n = Some
                  (Product.mk (Product.name p) (Product.price p)
                     (if (Product.count p - CartItem.quantity item =? 0)%Z
                      then false else Product.available p)
                     (Product.count p - CartItem.quantity item)
                     (Product.discount p))) as Hl1.
        { subst p1. rewrite E. apply lookup_insert_eq. }
        destruct (IH _ _ Hl1) as (p' & Hp' & Hn & Hpr & Hd & Ha & Hc & Hle & _).
        cbn in Hn, Hpr, Hd, Ha, Hc, Hle.
        destruct (checkout_loop rest p1) as [p2 log]. cbn in *.
        exists p'. repeat split; try done.
        -- intros Ht. specialize (Ha Ht).
           by destruct (Product.count p - CartItem.quantity item =? 0)%Z.
        -- intros _. apply Hc. lia.
        -- intros Hnn. apply Forall_cons in Hnn as [Hq0 Hnn].
           specialize (Hle Hnn). lia.
        -- intros Hnot. exfalso. apply Hnot. rewrite <- E. left.
      * assert (p1 !! n = Some p) as Hl1.
        { subst p1. by rewrite lookup_insert_ne. }
        destruct (IH _ _ Hl1) as (p' & Hp' & Hn & Hpr & Hd & Ha & Hc & Hle & Hkeep).
        destruct (checkout_loop rest p1) as [p2 log]. cbn in *.
        exists p'. repeat split; try done.
        -- intros Hnn. apply Forall_cons in Hnn as [_ Hnn]. by apply Hle.
        -- intros Hnot. apply Hkeep. intros ?. apply Hnot. by right.
    + destruct (IH _ _ Hl) as (p' & Hp' & Hn & Hpr & Hd & Ha & Hc & Hle & Hkeep).
      exists p'. repeat split; try done.
      * intros Hnn. apply Forall_cons in Hnn as [_ Hnn]. by apply Hle.
      * intros Hnot. apply Hkeep. intros ?. apply Hnot. cbn. by right.
    + exists p. cbn. repeat split; try done; lia.
Qed.

Lemma checkout_catalog (cart_items : cart) products :
  (checkout cart_items products).1 = (checkout_loop cart_items products).1
  \/ (checkout cart_items products).1 = products.
Proof.
  unfold checkout. destruct (display_cart cart_items) as [log0 [u|e]].
  - left. by destruct (checkout_loop cart_items products).
  - by right.
Qed.

Lemma checkout_entry (cart_items : cart) products n p :
  products !! n = Some p ->
  exists p',
    (checkout cart_items products).1 !! n = Some p'
    /\ Product.name p' = Product.name p
    /\ Product.price p' = Product.price p
    /\ Product.discount p' = Product.discount p
    /\ (Product.available p' = true -> Product.available p = true)
    /\ (0 <= Product.count p -> 0 <= Product.count p')%Z
    /\ (nonnegative_quantities cart_items ->
        Product.count p' <= Product.count p)%Z
    /\ (n ∉ names cart_items -> p' = p).
Proof.
  intros Hl. destruct (checkout_catalog cart_items products) as [-> | ->].
  - by apply checkout_loop_entry.
  - exists p. repeat split; try done; lia.
Qed.

(** X12.  Whatever its outcome, [checkout] neither adds nor removes catalog
    entries, and an entry no line item names is left exactly as it was. *)
Theorem checkout_keeps_catalog_names (cart_items : cart) products :
  dom (checkout cart_items products).1 = dom products
  /\ forall n, n ∉ names cart_items ->
       (checkout cart_items products).1 !! n = products !! n.
Proof.
  split.
  - apply set_eq. intros n. rewrite !elem_of_dom. split.
    + intros [p' Hp']. destruct (products !! n) as [p|] eqn:Hl; [eauto|].
      destruct (checkout_catalog cart_items products) as [E|E];
        rewrite E in Hp'.
      * by rewrite (checkout_loop_keeps_absent _ _ _ Hl) in Hp'.
      * congruence.
    + intros [p Hl].
      destruct (checkout_entry cart_items _ _ _ Hl) as (p' & -> & _). eauto.
  - intros n Hn. destruct (products !! n) as [p|] eqn:Hl.
    + destruct (checkout_entry cart_items _ _ _ Hl)
        as (p' & -> & _ & _ & _ & _ & _ & _ & Hkeep).
      by rewrite (Hkeep Hn).
    + destruct (checkout_catalog cart_items products) as [-> | ->]; [|done].
      by apply checkout_loop_keeps_absent.
Qed.

(** X13.  Whatever its outcome, [checkout] leaves the name, the price and
    the discount of every entry alone, and never makes an unavailable
    product available. *)
Theorem checkout_keeps_attributes (cart_items : cart) products n p :
  products !! n = Some p ->
  exists p',
    (checkout cart_items products).1 !! n = Some p'
    /\ Product.name p' = Product.name p
    /\ Product.price p' = Product.price p
    /\ Product.discount p' = Product.discount p
    /\ (Product.available p = false -> Product.available p' = false).
Proof.
  intros Hl. destruct (checkout_entry cart_items _ _ _ Hl)
    as (p' & Hp' & Hn & Hpr & Hd & Ha & _).
  exists p'. repeat split; try done.
  intros Hf. destruct (Product.available p'); [|done].
  rewrite Ha in Hf; done.
Qed.

Lemma checkout_keeps_attributes_witness :
  exists p',
    (checkout [CartItem.mk "Headphones1" 50 10 (Some BaseDiscountStrategy)]
              sample_products).1 !! "Headphones1"%string = Some p'
    /\ Product.price p' = 50%Q
    /\ Product.available p' = false.
Proof.
  destruct (checkout_keeps_attributes
              [CartItem.mk "Headphones1" 50 10 (Some BaseDiscountStrategy)]
              sample_products "Headphones1"
              (Product.mk "Headphones1" 50 false 10 0))
    as (p' & Hp' & _ & Hprice & _ & Ha).
  - reflexivity.
  - exists p'. split; [exact Hp'|]. split; [exact Hprice|]. apply Ha. reflexivity.
Defined.

(** X14.  A count that is not negative never becomes negative, whatever the
    cart and the outcome; and when no line item has a negative quantity no
    count grows. *)
Theorem checkout_never_oversells (cart_items : cart) products n p :
  products !! n = Some p ->
  (0 <= Product.count p)%Z ->
  exists p',
    (checkout cart_items products).1 !! n = Some p'
    /\ (0 <= Product.count p')%Z
    /\ (nonnegative_quantities cart_items ->
        Product.count p' <= Product.count p)%Z.
Proof.
  intros Hl H0. destruct (checkout_entry cart_items _ _ _ Hl)
    as (p' & Hp' & _ & _ & _ & _ & Hc & Hle & _).
  exists p'. repeat split; [done|by apply Hc|done].
Qed.

Lemma checkout_never_oversells_witness :
  exists p',
    (checkout [CartItem.mk "Laptop1" 800 7 (Some BaseDiscountStrategy);
               CartItem.mk "Laptop1" 800 30 (Some BaseDiscountStrategy)]
              sample_products).1 !! "Laptop1"%string = Some p'
    /\ (0 <= Product.count p')%Z.
Proof.
  destruct (checkout_never_oversells
              [CartItem.mk "Laptop1" 800 7 (Some BaseDiscountStrategy);
               CartItem.mk "Laptop1" 800 30 (Some BaseDiscountStrategy)]
              sample_products "Laptop1" (Product.mk "Laptop1" 800 true 20 5))
    as (p' & Hp' & H0 & _).
  - reflexivity.
  - cbn. lia.
  - exists p'. split; [exact Hp'|exact H0].
Defined.

Lemma checkout_item_same_stocks item products1 products2 :
  same_stocks products1 products2 ->
  match checkout_item item products1, checkout_item item products2 with
  | Deducted products1' _, Deducted products2' _ =>
      same_stocks products1' products2'
  | Skipped, Skipped => True
  | Insufficient r1, Insufficient r2 => r1 = r2
  | _, _ => False
  end.
Proof.
  intros Hs. pose proof (Hs (CartItem.name item)) as Hn.
  unfold checkout_item.
  destruct (products1 !! CartItem.name item) as [p1|] eqn:H1,
           (products2 !! CartItem.name item) as [p2|] eqn:H2; try done.
  destruct Hn as (Hname & Hprice & Hcount & Hdisc). rewrite <- Hcount.
  destruct (CartItem.quantity item <=? Product.count p1)%Z; [|done].
  cbn zeta. intros n. destruct (decide (CartItem.name item = n)) as [<-|Hne].
  - rewrite !lookup_insert_eq. cbn.
    destruct (Product.count p1 - CartItem.quantity item =? 0)%Z;
      by repeat split.
  - rewrite !lookup_insert_ne by done. apply Hs.
Qed.

Lemma last_cons_nonempty {A} (x : A) l : l <> [] -> last (x :: l) = last l.
Proof. by destruct l. Qed.

Lemma checkout_loop_same_stocks (cart_items : cart) products1 products2 :
  same_stocks products1 products2 ->
  same_stocks (checkout_loop cart_items products1).1
              (checkout_loop cart_items products2).1
  /\ last (checkout_loop cart_items products1).2
     = last (checkout_loop cart_items products2).2
  /\ (checkout_loop cart_items products1).2 <> []
  /\ (checkout_loop cart_items products2).2 <> [].
Proof.
  revert products1 products2.
  induction cart_items as [|item rest IH]; intros m1 m2 Hs; [done|].
  cbn [checkout_loop].
  pose proof (checkout_item_same_stocks item _ _ Hs) as Hi.
  destruct (checkout_item item m1) as [m1' r1| |r1],
           (checkout_item item m2) as [m2' r2| |r2]; try done.
  - destruct (IH _ _ Hi) as (Ha & Hb & Hc & Hd).
    destruct (checkout_loop rest m1') as [m1'' l1],
             (checkout_loop rest m2') as [m2'' l2].
    cbn in *. split; [done|]. split; [|done].
    by rewrite !last_cons_nonempty.
  - by apply IH.
  - subst r2. done.
Qed.

(** X15.  [checkout] never reads the [available] flag: on two catalogs that
    differ in those flags only it ends with the same record and leaves the
    same counts.  A product marked unavailable is sold like any other. *)
Theorem checkout_ignores_availability (cart_items : cart)
    products1 products2 :
  same_stocks products1 products2 ->
  same_stocks (checkout cart_items products1).1
              (checkout cart_items products2).1
  /\ last (checkout cart_items products1).2
     = last (checkout cart_items products2).2.
Proof.
  intros Hs. unfold checkout.
  destruct (display_cart cart_items) as [log0 [u|e]]; [|done].
  destruct (checkout_loop_same_stocks cart_items _ _ Hs) as (Ha & Hb & Hc & Hd).
  destruct (checkout_loop cart_items products1) as [m1 l1],
           (checkout_loop cart_items products2) as [m2 l2].
  cbn in *. split; [done|]. rewrite !last_app.
  rewrite Hb. done.
Qed.

Lemma checkout_ignores_availability_witness :
  let cart_items := [CartItem.mk "Headphones1" 50 4 (Some BaseDiscountStrategy)] in
  let products2 := alter (Product.set_available true) "Headphones1"%string
                         sample_products in
  last (checkout cart_items sample_products).2
  = last (checkout cart_items products2).2
  /\ last (checkout cart_items sample_products).2 = Some purchase_successful.
Proof.
  cbn zeta.
  destruct (checkout_ignores_availability
              [CartItem.mk "Headphones1" 50 4 (Some BaseDiscountStrategy)]
              sample_products
              (alter (Product.set_available true) "Headphones1"%string
                     sample_products)) as [_ H].
  - intros n. rewrite lookup_alter.
    destruct (decide ("Headphones1"%string = n)) as [<-|Hne].
    + vm_compute. done.
    + destruct (sample_products !! n); cbn; done.
  - split; [exact H|reflexivity].
Defined.

Lemma checkout_not_priced_witness :
  checkout [CartItem.mk "Laptop1" 800 1 None] sample_products
  = (sample_products,
     [(INFO, CartItemsMsg [(1%Z, "Laptop1"%string)]);
      (ERROR, CheckoutErrorMsg AttributeError)]).
Proof.
  apply (checkout_not_priced [CartItem.mk "Laptop1" 800 1 None]).
  intros H. apply Forall_cons in H as [[s Hs] _]. discriminate.
Defined.



(** ** The customer menu *)

(** X18.  For a product whose discount is above 0 the menu adds a line item
    with the catalog's name and price and a discount of 10 percent,
    whatever the product's own percentage is. *)
Theorem menu_add_flat_ten_percent products (cart_items : cart) name quantity p :
  products !! name = Some p ->
  (0 < Product.discount p)%Q ->
  let item := CartItem.mk (Product.name p) (Product.price p) quantity
                (Some (PercentageOffDiscountStrategy 10)) in
  menu_add products cart_items name quantity = cart_items ++ [item]
  /\ result_eq (CartItem.calculate_total item)
       (Return (Product.price p * (9 # 10) * inject_Z quantity)%Q).
Proof.
  intros Hl Hd. cbn zeta. split.
  - unfold menu_add, menu_strategy, ProductPrototype.clone. rewrite Hl.
    destruct (Qle_bool (Product.discount p) 0) eqn:E.
    + apply Qle_bool_iff in E. lra.
    + done.
  - cbn. unfold Qdiv. change (/ 100)%Q with (1 # 100)%Q. ring.
Qed.

Lemma menu_add_flat_ten_percent_witness :
  menu_add sample_products [] "Laptop1" 2
  = [CartItem.mk "Laptop1" 800 2 (Some (PercentageOffDiscountStrategy 10))].
Proof.
  apply (menu_add_flat_ten_percent sample_products [] "Laptop1" 2
           (Product.mk "Laptop1" 800 true 20 5)).
  - reflexivity.
  - reflexivity.
Defined.

(** X19.  For a product whose discount is 0 or less the menu adds a line
    item without a strategy; from then on, whatever else the cart holds and
    whatever the stock, [checkout] ends with the error record and leaves
    the catalog as it is. *)
Theorem menu_zero_discount_blocks_checkout
    products (cart_items more : cart) name quantity p stock :
  products !! name = Some p ->
  (Product.discount p <= 0)%Q ->
  exists cart_info,
    checkout (menu_add products cart_items name quantity ++ more) stock
    = (stock, [(INFO, CartItemsMsg cart_info);
               (ERROR, CheckoutErrorMsg AttributeError)]).
Proof.
  intros Hl Hd. eexists.
  unfold checkout, display_cart, calculate_total_bill.
  rewrite sum_from_not_priced; [reflexivity|].
  unfold menu_add, menu_strategy, ProductPrototype.clone. rewrite Hl.
  apply Qle_bool_iff in Hd. rewrite Hd. unfold add_item, priced.
  rewrite !Forall_app, Forall_singleton. cbn.
  intros [[_ [s Hs]] _]. discriminate.
Qed.

Lemma menu_zero_discount_blocks_checkout_witness :
  exists cart_info,
    checkout (menu_add sample_products
                (menu_add sample_products [] "Laptop1" 1) "Headphones1" 1
              ++ [])
             sample_products
    = (sample_products, [(INFO, CartItemsMsg cart_info);
                         (ERROR, CheckoutErrorMsg AttributeError)]).
Proof.
  apply (menu_zero_discount_blocks_checkout sample_products _ [] "Headphones1" 1
           (Product.mk "Headphones1" 50 false 10 0)).
  - reflexivity.
  - cbn. lra.
Defined.

(** ** The registry and the admin menu *)

(** X20.  [register_product] replaces whatever was registered under the
    name by a product with the default count, leaves the other names
    alone, and of two registrations of a name the second one wins. *)
Theorem register_product_replaces products name price available discount :
  let products' :=
    ProductPrototype.register_product products name price available discount in
  products' !! name
  = Some (Product.mk name price available default_count discount)
  /\ (forall other, other <> name -> products' !! other = products !! other)
  /\ forall price2 available2 discount2,
       ProductPrototype.register_product products' name price2 available2
                                         discount2
       = ProductPrototype.register_product products name price2 available2
                                           discount2.
Proof.
  cbn zeta. unfold ProductPrototype.register_product. split.
  - apply lookup_insert_eq.
  - split.
    + intros other Hne. by rewrite lookup_insert_ne.
    + intros. apply insert_insert_eq.
Qed.

(** X21.  [clone] returns a line item exactly for the registered names and
    raises [KeyError] with the name for every other one. *)
Theorem clone_returns_iff_registered products name quantity discount_strategy :
  (is_Some (products !! name) <->
   exists item,
     ProductPrototype.clone products name quantity discount_strategy
     = Return item)
  /\ (products !! name = None <->
      ProductPrototype.clone products name quantity discount_strategy
      = Raise (KeyError name)).
Proof.
  unfold ProductPrototype.clone.
  destruct (products !! name) as [p|]; split; split; try done; eauto;
    by intros [? ?].
Qed.

(** X22.  After choice 1 of the admin menu the entry of the name holds
    exactly the five values entered, nothing of an earlier entry of that
    name survives, and the other entries are unchanged. *)
Theorem admin_add_product_entry products name price available discount count :
  let products' :=
    admin_add_product products name price available discount count in
  products' !! name = Some (Product.mk name price available count discount)
  /\ forall other, other <> name -> products' !! other = products !! other.
Proof.
  cbn zeta. unfold admin_add_product, ProductPrototype.register_product. split.
  - rewrite lookup_alter_eq, lookup_insert_eq. done.
  - intros other Hne. rewrite lookup_alter_ne, lookup_insert_ne by done. done.
Qed.

(** X23.  Choice 2 of the admin menu sets availability, count and discount
    of a registered product and can change neither its name nor its price;
    for a name that is not registered the catalog stays as it is; other
    entries are never touched. *)
Theorem admin_update_product_entry products name available count discount :
  let products' :=
    admin_update_product products name available count discount in
  match products !! name with
  | Some p =>
      products' !! name
      = Some (Product.mk (Product.name p) (Product.price p) available count
                         discount)
  | None => products' = products
  end
  /\ forall other, other <> name -> products' !! other = products !! other.
Proof.
  cbn zeta. unfold admin_update_product.
  destruct (products !! name) as [p|] eqn:Hl.
  - split.
    + rewrite !lookup_alter_eq, Hl. done.
    + intros other Hne. by rewrite !lookup_alter_ne.
  - done.
Qed.

(** ** Login *)

(** X24.  [login] succeeds exactly when the password typed is the user's
    password; the user name typed is asked for and never looked at. *)
Theorem login_checks_password_only u username_input password_input :
  ((User.login u username_input password_input).2 = true
   <-> password_input = User.password u)
  /\ forall other_username,
       User.login u other_username password_input
       = User.login u username_input password_input.
Proof.
  split; [|done]. unfold User.login, User.authenticate.
  destruct (String.eqb (User.password u) password_input) eqn:E; cbn.
  - apply String.eqb_eq in E. done.
  - apply String.eqb_neq in E. split; [done|]. intros ->. done.
Qed.

(** ** Catalog entries in the store *)

Lemma well_formed_write_product st name f :
  well_formed st -> well_formed (write_product st name f).
Proof.
  intros [Hobj Hinj]. unfold write_product.
  destruct (products st !! name) as [l|] eqn:Hl; [|done].
  destruct (heap st !! l) as [[p|c]|] eqn:Hp; try done.
  split; cbn; [|done].
  intros n l' Hl'. destruct (decide (l = l')) as [<-|Hne].
  - rewrite lookup_insert_eq. eauto.
  - rewrite lookup_insert_ne by done. eauto.
Qed.

Lemma well_formed_edits edits st :
  well_formed st -> well_formed (foldl apply_edit st edits).
Proof.
  revert st. induction edits as [|e edits IH]; intros st Hwf; cbn; [done|].
  apply IH. destruct e; cbn.
  - by apply well_formed_write_product.
  - by apply well_formed_register_product.
Qed.

(** X25.  However the catalog has been built from registrations and
    attribute assignments, every name refers to a [Product] object of its
    own: an assignment to the entry of one name changes that entry and
    leaves the entry of every other name as it was. *)
Theorem catalog_entries_never_alias edits name other f :
  name <> other ->
  let st := foldl apply_edit (mkState ∅ ∅) edits in
  well_formed st
  /\ read_product (write_product st name f) other = read_product st other
  /\ read_product (write_product st name f) name
     = f <$> read_product st name.
Proof.
  intros Hne. cbn zeta.
  pose proof (well_formed_edits edits _ well_formed_empty) as Hwf.
  split; [done|].
  rewrite <- !erase_lookup, erase_write_product by done.
  rewrite lookup_alter_ne by done. rewrite lookup_alter_eq. done.
Qed.

Lemma catalog_entries_never_alias_witness :
  let st := foldl apply_edit (mkState ∅ ∅)
              [Register "Laptop1" 800 true 5;
               Register "Headphones1" 50 false 0;
               Register "Laptop1" 900 true 5] in
  Product.count <$> read_product
      (write_product st "Laptop1" (Product.set_count 3)) "Headphones1"
  = Some 10%Z.
Proof.
  cbn zeta.
  destruct (catalog_entries_never_alias
              [Register "Laptop1" 800 true 5;
               Register "Headphones1" 50 false 0;
               Register "Laptop1" 900 true 5]
              "Laptop1" "Headphones1" (Product.set_count 3)) as (_ & H & _).
  - discriminate.
  - rewrite H. vm_compute. reflexivity.
Defined.
